(** * vscode-sxml: XInclude resolution and XPointer fragment selection

    A shallow embedding of [src/services/xinclude.ts].

    Conventions of the embedding.
    - A JavaScript string is a [string]; one character stands for one
      UTF-16 code unit in the range 0..255.
    - What the parser reports (position, line, column) and counters that
      only grow from zero (child counts, element() steps, recursion depth) are
      [nat]; a variable of the code that holds an offset is a [Z], since the
      code uses [-1] for "absent" and subtracts from offsets.
    - A thrown exception or a rejected promise is the [Throw] completion.
    - The saxes parser is an external library: the events it emits for a
      text are a parameter of the model (see [Scan]). *)

From Stdlib Require Import ZArith String Ascii DecimalString DecimalNat Permutation.
From stdpp Require Import base option list gmap strings.

Local Open Scope Z_scope.

(** ** Completions: normal return or thrown exception *)

Record Exn := MkExn { exn_name : string; exn_message : string }.

(** [new Error(message)] *)
Definition Error (message : string) : Exn := MkExn "Error" message.

(** [`${err}`], i.e. [Error.prototype.toString]. *)
Definition exn_to_string (e : Exn) : string :=
  if bool_decide (exn_name e = "") then exn_message e
  else if bool_decide (exn_message e = "") then exn_name e
  else exn_name e +:+ ": " +:+ exn_message e.

Inductive Completion (A : Type) : Type :=
| Normal (a : A)
| Throw (e : Exn).
Arguments Normal {A} a.
Arguments Throw {A} e.

#[global] Instance completion_ret : MRet Completion := fun _ a => Normal a.
#[global] Instance completion_bind : MBind Completion := fun _ _ k c =>
  match c with
  | Normal a => k a
  | Throw e => Throw e
  end.

(** ** JavaScript string primitives *)

Module JS.

(** The double quote character. *)
Definition dq : string := String "034"%char EmptyString.

Definition len (s : string) : Z := Z.of_nat (String.length s).

Definition clamp (n i : Z) : Z := Z.max 0 (Z.min i n).

(** [s.substring(a, b)]: both ends are clamped to [0, length] and swapped
    when out of order. *)
Definition substring (s : string) (a b : Z) : string :=
  let a' := clamp (len s) a in
  let b' := clamp (len s) b in
  let lo := Z.min a' b' in
  let hi := Z.max a' b' in
  String.substring (Z.to_nat lo) (Z.to_nat (hi - lo)) s.

(** [s.substring(a)] *)
Definition substring_from (s : string) (a : Z) : string :=
  substring s a (len s).

(** Forward scan remembering the last index [<= bound] that holds [c]. *)
Fixpoint lastIndexOf_go (c : ascii) (s : string) (i bound : Z) (acc : Z) : Z :=
  match s with
  | EmptyString => acc
  | String a rest =>
      if bound <? i then acc
      else lastIndexOf_go c rest (i + 1) bound
             (if bool_decide (a = c) then i else acc)
  end.

(** [s.lastIndexOf(c, fromIndex)] for a one-character search string: a
    negative [fromIndex] is treated as 0, and the result is [-1] when no
    occurrence lies at or before it. *)
Definition lastIndexOf (s : string) (c : ascii) (fromIndex : Z) : Z :=
  lastIndexOf_go c s 0 (Z.max 0 fromIndex) (-1).

(** White space and line terminators, the class of [\s] and of [trim]. *)
Definition is_space (c : ascii) : bool :=
  match c with
  | "009" | "010" | "011" | "012" | "013" | " " | "160" => true
  | _ => false
  end%char.

(** The characters the regular expression dot does not match. *)
Definition is_line_terminator (c : ascii) : bool :=
  match c with
  | "010" | "013" => true
  | _ => false
  end%char.

Fixpoint trim_start (s : string) : string :=
  match s with
  | String c rest => if is_space c then trim_start rest else s
  | EmptyString => EmptyString
  end.

Fixpoint trim_end (s : string) : string :=
  match s with
  | EmptyString => EmptyString
  | String c rest =>
      match trim_end rest with
      | EmptyString => if is_space c then EmptyString else String c EmptyString
      | r => String c r
      end
  end.

Definition trim (s : string) : string := trim_end (trim_start s).

(** [Some rest] when [s = pre ++ rest]. *)
Fixpoint strip_prefix (pre s : string) : option string :=
  match pre, s with
  | EmptyString, _ => Some s
  | String a pre', String b s' =>
      if bool_decide (a = b) then strip_prefix pre' s' else None
  | String _ _, EmptyString => None
  end.

(** [Some body] when [s = body ++ [c]]. *)
Fixpoint strip_last (c : ascii) (s : string) : option string :=
  match s with
  | EmptyString => None
  | String a EmptyString => if bool_decide (a = c) then Some EmptyString else None
  | String a rest => String a <$> strip_last c rest
  end.

Fixpoint forallb_string (p : ascii -> bool) (s : string) : bool :=
  match s with
  | EmptyString => true
  | String a rest => p a && forallb_string p rest
  end.

Definition is_empty (s : string) : bool :=
  match s with EmptyString => true | _ => false end.

(** [s.split(sep)] for a one-character separator. *)
Fixpoint split (sep : ascii) (s : string) : list string :=
  match s with
  | EmptyString => [EmptyString]
  | String a rest =>
      if bool_decide (a = sep) then EmptyString :: split sep rest
      else match split sep rest with
           | tok :: toks => String a tok :: toks
           | [] => [String a EmptyString]
           end
  end.

(** [l.join(sep)] *)
Fixpoint join (sep : string) (l : list string) : string :=
  match l with
  | [] => EmptyString
  | [x] => x
  | x :: rest => x +:+ sep +:+ join sep rest
  end.

(** [`${n}`] for a natural number. *)
Definition of_nat (n : nat) : string := NilEmpty.string_of_uint (Nat.to_uint n).

End JS.

(** ** The saxes event stream

    [new SaxesParser({ xmlns: true, position: true })] followed by
    [parser.write(xmlSource).close()] calls the registered handlers once per
    event, in document order, and throws at the first well-formedness error.
    Both functions of the module subscribe to [opentag] and [closetag] only,
    and read [parser.position], [parser.line] and [parser.column] inside the
    handlers: an event carries the node and those three readings. *)

Record SaxesAttributeNS := MkAttr {
  attr_name : string;     (* the key in [node.attributes] *)
  attr_prefix : string;
  attr_local : string;
  attr_uri : string;
  attr_value : string }.

Record SaxesTag := MkTag {
  tag_uri : string;
  tag_local : string;
  attributes : list SaxesAttributeNS;
  isSelfClosing : bool }.

Record ParserPos := MkPos { position : nat; line : nat; column : nat }.

Inductive SaxesEvent :=
| OpenTag (node : SaxesTag) (pp : ParserPos)
| CloseTag (node : SaxesTag) (pp : ParserPos).

(** What one run of the parser over a text does: the events delivered, the
    error thrown after them (if any), and what the parser's position getters
    return once [write(..).close()] has returned or thrown. *)
Record Scan := MkScan {
  events : list SaxesEvent;
  failure : option Exn;
  final : ParserPos }.

(** [node.attributes.key] *)
Definition get_attribute (node : SaxesTag) (key : string) : option SaxesAttributeNS :=
  List.find (fun a => bool_decide (attr_name a = key)) (attributes node).

(** ** XPointer expressions *)

Definition XML_NS : string := "http://www.w3.org/XML/1998/namespace".

(** The capture of [/^pre(.+)\)$/] where [pre] is a literal. *)
Definition match_wrapped (pre s : string) : option string :=
  body ← JS.strip_prefix pre s ≫= JS.strip_last ")"%char;
  if negb (JS.is_empty body)
     && JS.forallb_string (fun c => negb (JS.is_line_terminator c)) body
  then Some body else None.

Definition is_quote (c : ascii) : bool :=
  bool_decide (c = "'"%char) || bool_decide (c = "034"%char).

(** [Some body] when [s = body ++ [c]] and [p c]. *)
Fixpoint strip_last_if (p : ascii -> bool) (s : string) : option string :=
  match s with
  | EmptyString => None
  | String a EmptyString => if p a then Some EmptyString else None
  | String a rest => String a <$> strip_last_if p rest
  end.

(** The capture of the regular expression for [id(Q body Q)], anchored at both
    ends, where each [Q] is a single or a double quote and [body] is one or
    more characters none of which is a quote. *)
Definition match_id_call (s : string) : option string :=
  r ← JS.strip_prefix "id(" s ≫= JS.strip_last ")"%char;
  match r with
  | String q rest =>
      if is_quote q then
        body ← strip_last_if is_quote rest;
        if negb (JS.is_empty body)
           && JS.forallb_string (fun c => negb (is_quote c)) body
        then Some body else None
      else None
  | EmptyString => None
  end.

Definition xpointer_inner (xpointer : string) : string :=
  let trimmed := JS.trim xpointer in
  match match_wrapped "xpointer(" trimmed with
  | Some w => JS.trim w
  | None => trimmed
  end.

Definition normalizeXPointer (xpointer : string) : string :=
  let inner := xpointer_inner xpointer in
  match match_id_call inner with
  | Some id => id
  | None => inner
  end.

Definition matchesId (attrs : list SaxesAttributeNS) (targetId : string) : bool :=
  existsb (fun attr =>
    if negb (bool_decide (attr_local attr = "id")) then false
    else
      let isXmlId := bool_decide (attr_uri attr = XML_NS)
                     || bool_decide (attr_prefix attr = "xml") in
      let isPlainId := JS.is_empty (attr_prefix attr) in
      (isXmlId || isPlainId) && bool_decide (attr_value attr = targetId)) attrs.

Inductive ElementScheme :=
| Positional (steps : list nat)
| ById (id : string) (steps : list nat).

Definition is_digit (c : ascii) : bool :=
  match Ascii.is_nat c with Some _ => true | None => false end.

(** [/^[1-9]\d*$/.test(token)] *)
Definition isIntegerToken (token : string) : bool :=
  match token with
  | String c rest =>
      is_digit c && negb (bool_decide (c = "0"%char)) && JS.forallb_string is_digit rest
  | EmptyString => false
  end.

(** [Number(token)] on a token of decimal digits. *)
Definition Number (token : string) : nat :=
  fold_left (fun acc c => (10 * acc + default 0 (Ascii.is_nat c))%nat)
            (list_ascii_of_string token) 0%nat.

(** [tokens.map(token => { if (!isIntegerToken(token)) throw ...; return Number(token) })] *)
Fixpoint parse_steps (tokens : list string) : Completion (list nat) :=
  match tokens with
  | [] => Normal []
  | token :: rest =>
      if isIntegerToken token then
        steps ← parse_steps rest; Normal (Number token :: steps)
      else Throw (Error ("Invalid element() step: " +:+ token))
  end.

Definition parseElementScheme (xpointer : string) : Completion (option ElementScheme) :=
  let inner := xpointer_inner xpointer in
  match match_wrapped "element(" inner with
  | None => Normal None
  | Some body =>
      let content := JS.trim body in
      if JS.is_empty content then Throw (Error "Empty element() XPointer.")
      else
        let tokens := List.filter (fun t => negb (JS.is_empty t)) (JS.split "/"%char content) in
        match tokens with
        | [] => Throw (Error "Empty element() XPointer.")
        | first :: others =>
            if isIntegerToken first then
              steps ← parse_steps tokens; Normal (Some (Positional steps))
            else
              steps ← parse_steps others; Normal (Some (ById first steps))
        end
  end.

(** ** Fragment selector: [selectXPointerFragment] *)

(** The closure variables of [selectXPointerFragment]. The two sparse arrays
    [positionalCounts] and [idCounts] are finite maps from index to value: an
    index never written reads as [undefined], here [None]. *)
Record SelState := MkSel {
  depth : Z;
  found : bool;
  targetDepth : option Z;
  startPos : Z;
  endPos : Z;
  childCounts : list nat;
  elementPath : list nat;
  positionalCounts : gmap nat nat;
  idCounts : gmap nat nat;
  idAnchorPath : option (list nat);
  idAnchorFound : bool }.

Definition sel_init : SelState :=
  MkSel 0 false None (-1) (-1) [0%nat] [] ∅ ∅ None false.

(** [path.length === target.length && path.every((step, i) => step === target[i])] *)
Definition matchesPath (path target : list nat) : bool :=
  (length path =? length target)%nat
  && forallb (fun '(i, step) => bool_decide (target !! i = Some step)) (imap pair path).

(** The stack update at the head of the [opentag] handler. On a stack that
    is empty the source computes with [undefined]; saxes delivers a close
    event only for an element it has opened, so [childCounts] is never empty
    there. *)
Definition enter_element (s : SelState) : SelState :=
  let parentIndex := (length (childCounts s) - 1)%nat in
  let counts := alter S parentIndex (childCounts s) in
  let currentIndex := default 0%nat (counts !! parentIndex) in
  MkSel (depth s + 1) (found s) (targetDepth s) (startPos s) (endPos s)
        (counts ++ [0%nat]) (elementPath s ++ [currentIndex])
        (positionalCounts s) (idCounts s) (idAnchorPath s) (idAnchorFound s).

Definition markTarget (xmlSource : string) (node : SaxesTag) (pos : Z)
    (s : SelState) : Completion SelState :=
  let tagStartPosition := JS.lastIndexOf xmlSource "<"%char (pos - 1) in
  if tagStartPosition =? -1 then
    Throw (Error "Could not find start of xpointer target.")
  else
    Normal (MkSel (depth s) true
              (if isSelfClosing node then None else Some (depth s))
              tagStartPosition
              (if isSelfClosing node then pos else endPos s)
              (childCounts s) (elementPath s)
              (positionalCounts s) (idCounts s) (idAnchorPath s) (idAnchorFound s)).

Definition set_anchor (s : SelState) : SelState :=
  MkSel (depth s) (found s) (targetDepth s) (startPos s) (endPos s)
        (childCounts s) (elementPath s) (positionalCounts s) (idCounts s)
        (Some (elementPath s)) true.

Definition sel_opentag (xmlSource : string) (elementScheme : option ElementScheme)
    (targetId : option string) (s0 : SelState) (node : SaxesTag) (pos : Z)
    : Completion SelState :=
  let s := enter_element s0 in
  if found s then Normal s
  else
    match elementScheme with
    | Some (Positional steps) =>
        if matchesPath (elementPath s) steps then markTarget xmlSource node pos s
        else Normal s
    | Some (ById id steps) =>
        s1 ← (if negb (idAnchorFound s) && matchesId (attributes node) id then
                 if (length steps =? 0)%nat
                 then markTarget xmlSource node pos (set_anchor s)
                 else Normal (set_anchor s)
               else Normal s);
        match idAnchorFound s1, idAnchorPath s1 with
        | true, Some anchor =>
            let matchesAnchor :=
              (length anchor <? length (elementPath s1))%nat
              && matchesPath (take (length anchor) (elementPath s1)) anchor in
            if matchesAnchor then
              let relativePath := drop (length anchor) (elementPath s1) in
              if matchesPath relativePath steps then markTarget xmlSource node pos s1
              else Normal s1
            else Normal s1
        | _, _ => Normal s1
        end
    | None =>
        match targetId with
        | Some id =>
            if negb (JS.is_empty id) && matchesId (attributes node) id
            then markTarget xmlSource node pos s
            else Normal s
        | None => Normal s
        end
    end.

(** [counts[i] = value], where [value] is [undefined] on an empty stack. *)
Definition record_count (counts : gmap nat nat) (i : nat) (value : option nat) : gmap nat nat :=
  match value with
  | Some c => <[i := c]> counts
  | None => delete i counts
  end.

Definition sel_closetag (elementScheme : option ElementScheme)
    (s : SelState) (pos : Z) : SelState :=
  let currentChildCount := last (childCounts s) in
  let currentPath := elementPath s in
  let depthIndex := length currentPath in
  let positionalCounts' :=
    match elementScheme with
    | Some (Positional steps) =>
        if (depthIndex <=? length steps)%nat
           && matchesPath currentPath (take depthIndex steps)
        then record_count (positionalCounts s) depthIndex currentChildCount
        else positionalCounts s
    | _ => positionalCounts s
    end in
  let idCounts' :=
    match elementScheme, idAnchorFound s, idAnchorPath s with
    | Some (ById id steps), true, Some anchor =>
        if matchesPath currentPath anchor then
          record_count (idCounts s) 0 currentChildCount
        else if (length anchor <? depthIndex)%nat then
          let relativePath := drop (length anchor) currentPath in
          if (length relativePath <=? length steps)%nat
             && matchesPath relativePath (take (length relativePath) steps)
          then record_count (idCounts s) (length relativePath) currentChildCount
          else idCounts s
        else idCounts s
    | _, _, _ => idCounts s
    end in
  let closesTarget :=
    match targetDepth s with
    | Some d => depth s =? d
    | None => false
    end in
  MkSel (depth s - 1) (found s)
        (if closesTarget then None else targetDepth s)
        (startPos s)
        (if closesTarget then pos else endPos s)
        (removelast (childCounts s)) (removelast (elementPath s))
        positionalCounts' idCounts' (idAnchorPath s) (idAnchorFound s).

Definition sel_event (xmlSource : string) (elementScheme : option ElementScheme)
    (targetId : option string) (s : SelState) (ev : SaxesEvent) : Completion SelState :=
  match ev with
  | OpenTag node pp =>
      sel_opentag xmlSource elementScheme targetId s node (Z.of_nat (position pp))
  | CloseTag node pp => Normal (sel_closetag elementScheme s (Z.of_nat (position pp)))
  end.

(** The handlers run over the events in order; an exception thrown by a
    handler leaves the parser's [write]. *)
Fixpoint sel_run (xmlSource : string) (elementScheme : option ElementScheme)
    (targetId : option string) (s : SelState) (evs : list SaxesEvent) : Completion SelState :=
  match evs with
  | [] => Normal s
  | ev :: rest =>
      s' ← sel_event xmlSource elementScheme targetId s ev;
      sel_run xmlSource elementScheme targetId s' rest
  end.

Definition formatStepError (step requested available : nat) (anchor : option string) : string :=
  let anchorInfo :=
    match anchor with
    | Some a => if JS.is_empty a then "" else " after anchor " +:+ JS.dq +:+ a +:+ JS.dq
    | None => ""
    end in
  "XInclude xpointer element() step " +:+ JS.of_nat step +:+ " out of range"
    +:+ anchorInfo +:+ ": requested " +:+ JS.of_nat requested +:+ ", found "
    +:+ JS.of_nat available +:+ " child elements.".

(** The loop [for (let i = 1; i < steps.length; i += 1)] of the failure
    branch, entered at index [i] with [rest = steps.slice(i)]: the message of
    the first throw, if any. *)
Fixpoint first_short_step (counts : gmap nat nat) (anchor : option string)
    (i : nat) (rest : list nat) : option string :=
  match rest with
  | [] => None
  | requested :: rest' =>
      match counts !! i with
      | Some available =>
          if (available <? requested)%nat
          then Some (formatStepError (i + 1) requested available anchor)
          else first_short_step counts anchor (i + 1) rest'
      | None => first_short_step counts anchor (i + 1) rest'
      end
  end.

Definition steps_to_string (steps : list nat) : string :=
  JS.join "/" (map JS.of_nat steps).

(** [requested > available], false when either side is [undefined]. *)
Definition exceeds (requested available : option nat) : bool :=
  match requested, available with
  | Some r, Some a => (a <? r)%nat
  | _, _ => false
  end.

(** The message thrown when the scan ended without a span. *)
Definition selection_failure (elementScheme : option ElementScheme)
    (targetId : option string) (s : SelState) : string :=
  match elementScheme with
  | Some (Positional steps) =>
      if exceeds (steps !! 0%nat) (childCounts s !! 0%nat) then
        formatStepError 1 (default 0%nat (steps !! 0%nat))
                        (default 0%nat (childCounts s !! 0%nat)) None
      else
        default ("XInclude xpointer target not found: " +:+ steps_to_string steps)
                (first_short_step (positionalCounts s) None 1 (drop 1 steps))
  | Some (ById id steps) =>
      if negb (idAnchorFound s) then "XInclude xpointer target not found: " +:+ id
      else if exceeds (steps !! 0%nat) (idCounts s !! 0%nat) then
        formatStepError 1 (default 0%nat (steps !! 0%nat))
                        (default 0%nat (idCounts s !! 0%nat)) (Some id)
      else
        default ("XInclude xpointer target not found: " +:+ id)
                (first_short_step (idCounts s) (Some id) 1 (drop 1 steps))
  | None =>
      "XInclude xpointer target not found: " +:+ default "null" targetId
  end.

(** The body of [selectXPointerFragment] once the expression is parsed. *)
Definition select_scheme (scan : Scan) (xmlSource : string)
    (elementScheme : option ElementScheme) (targetId : option string) : Completion string :=
  s ← sel_run xmlSource elementScheme targetId sel_init (events scan);
  match failure scan with
  | Some err => Throw err
  | None =>
      if (startPos s =? -1) || (endPos s =? -1)
      then Throw (Error (selection_failure elementScheme targetId s))
      else Normal (JS.substring xmlSource (startPos s) (endPos s))
  end.

Definition selectXPointerFragment (saxes : string -> Scan)
    (xmlSource xpointer : string) : Completion string :=
  elementScheme ← parseElementScheme xpointer;
  let targetId :=
    match elementScheme with
    | Some _ => None
    | None => Some (normalizeXPointer xpointer)
    end in
  match elementScheme, targetId with
  | None, Some EmptyString => Throw (Error "Empty xpointer target.")
  | _, _ => select_scheme (saxes xmlSource) xmlSource elementScheme targetId
  end.

(** ** Href resolution *)

Definition hex_digit (n : nat) : ascii :=
  default "0"%char (list_ascii_of_string "0123456789ABCDEF" !! n).

Definition percent_byte (b : nat) : string :=
  String "%" (String (hex_digit (b / 16)) (String (hex_digit (b mod 16)) EmptyString)).

(** [encodeURIComponent(char)] for a code unit above 0x7f (below 0x100): the
    two bytes of its UTF-8 encoding, percent-escaped. *)
Definition encodeURIComponent_high (c : ascii) : string :=
  let code := nat_of_ascii c in
  percent_byte (192 + code / 64) +:+ percent_byte (128 + code mod 64).

Fixpoint iriToUri (iri : string) : string :=
  match iri with
  | EmptyString => EmptyString
  | String c rest =>
      (if (nat_of_ascii c <=? 127)%nat then String c EmptyString
       else encodeURIComponent_high c) +:+ iriToUri rest
  end.

(** ** The host: constants, collaborators and configuration

    Everything [resolveXIncludes] imports or reaches through the [vscode]
    API, the WHATWG [URL] class, [fetch] and the parser. *)

(** A [vscode.Uri]: the part the code reads. *)
Record Uri := MkUri { uri_scheme : string; uri_toString : string }.

(** A [vscode.TextDocument]. *)
Record TextDocument := MkDoc { getText : string; doc_uri : Uri }.

(** A fetch [Response]. *)
Record Response := MkResponse {
  response_ok : bool;
  statusText : string;
  response_text : Completion string }.

Record Host := MkHost {
  (** [../constants] *)
  XINCLUDE_NS : string;
  XINCLUDE_LOCAL : string;
  (** [../utils] *)
  normalizeSchemaUrl : string -> string;
  (** the parser *)
  saxes : string -> Scan;
  (** [new URL(x).toString()] and [new URL(x, base).toString()];
      [None] when the constructor throws *)
  URL_absolute : string -> option string;
  URL_relative : string -> string -> option string;
  Uri_parse : string -> Uri;
  fetch : string -> Completion Response;
  openTextDocument : Uri -> Completion TextDocument;
  (** Modelled from the spec: the settings schema of the extension is not
      part of the sources; section 6 declares [xincludeDepth] a positive
      integer with default 50 and [xincludeSupport] a boolean with default
      true. An unset [xincludeDepth] reads as 0 here, which the code replaces
      by 50 just like a configured 0. *)
  xincludeDepth : nat;
  xincludeSupport : bool;
  (** The order in which the promises handed to [Promise.all] by the call
      at a given depth on a given text settle: some enumeration of the slots
      [0 .. n-1], each exactly once. *)
  settle_order : nat -> string -> nat -> list nat;
  settle_order_perm : forall depth xmlSource n,
    Permutation (settle_order depth xmlSource n) (seq 0 n) }.

Definition resolveXIncludeHref (h : Host) (href : string) (baseUri : option Uri) : string :=
  let hrefUri := iriToUri href in
  match URL_absolute h hrefUri with
  | Some url => url
  | None =>
      match baseUri ≫= (fun b => URL_relative h hrefUri (uri_toString b)) with
      | Some url => url
      | None => normalizeSchemaUrl h href
      end
  end.

(** ** Inclusion resolver: [resolveXIncludes] *)

(** What the resolver does to the outside world. *)
Inductive Effect :=
| Fetch (url : string)
| OpenTextDocument (uri : Uri)
| ShowInformationMessage (message : string)
| ConsoleError (message : string).

(** One entry of [outputParts]: a string, or a promise. A promise created
    by the [opentag] handler settles after the scan; the string it fulfils
    with may depend on what [resolverParser.position] returns at that time,
    and settling it may have effects of its own (those of the nested call).
    [None] is a nested call the model ran out of fuel for. *)
Inductive Part :=
| Str (s : string)
| Promise (settle : nat -> option (list Effect * string)).

Record ResState := MkRes {
  outputParts : list Part;
  lastPos : Z;
  foundXi : bool;
  effects : list Effect }.

Definition res_init : ResState := MkRes [] 0 false [].

Definition push_part (p : Part) (s : ResState) : ResState :=
  MkRes (outputParts s ++ [p]) (lastPos s) (foundXi s) (effects s).

Definition set_lastPos (pos : Z) (s : ResState) : ResState :=
  MkRes (outputParts s) pos (foundXi s) (effects s).

Definition set_foundXi (s : ResState) : ResState :=
  MkRes (outputParts s) (lastPos s) true (effects s).

Definition perform (e : Effect) (s : ResState) : ResState :=
  MkRes (outputParts s) (lastPos s) (foundXi s) (effects s ++ [e]).

(** [get(xincludeDepth) as number || 50] *)
Definition depthLimit (h : Host) : nat :=
  if (xincludeDepth h =? 0)%nat then 50%nat else xincludeDepth h.

Definition is_xinclude (h : Host) (node : SaxesTag) : bool :=
  bool_decide (tag_uri node = XINCLUDE_NS h)
  && bool_decide (tag_local node = XINCLUDE_LOCAL h).

(** [doc.replace(/^\s*<\?xml.*?\?>\s*/, EMPTY)]: the lazy [.*?] stops at the
    first [?>] and does not cross a line terminator. *)
Fixpoint skip_to_pi_end (s : string) : option string :=
  match s with
  | EmptyString => None
  | String c rest =>
      match c, rest with
      | "?"%char, String ">"%char after => Some after
      | _, _ => if JS.is_line_terminator c then None else skip_to_pi_end rest
      end
  end.

Definition strip_declaration (doc : string) : string :=
  match JS.strip_prefix "<?xml" (JS.trim_start doc) ≫= skip_to_pi_end with
  | Some after => JS.trim_start after
  | None => doc
  end.

Definition warningPI (line col : nat) : string :=
  "<?xml-xi-map-enter warning=" +:+ JS.dq
    +:+ "XInclude resolution is turned off in settings." +:+ JS.dq
    +:+ " parent-line=" +:+ JS.dq +:+ JS.of_nat line +:+ JS.dq
    +:+ " parent-col=" +:+ JS.dq +:+ JS.of_nat col +:+ JS.dq
    +:+ "?><?xml-xi-map-leave?>".

Definition errorPI (description : string) (parentStart parentCol : nat) : string :=
  "<?xml-xi-error err=" +:+ JS.dq +:+ description +:+ JS.dq
    +:+ " parent-start=" +:+ JS.dq +:+ JS.of_nat parentStart +:+ JS.dq
    +:+ " parent-col=" +:+ JS.dq +:+ JS.of_nat parentCol +:+ JS.dq +:+ "?>".

Definition makePI (depth : nat) (hrefURL : string) (line col : nat)
    (resolvedNestedXml : string) : string :=
  if (0 <? depth)%nat then
    "<?xml-xi-nested-enter uri=" +:+ JS.dq +:+ hrefURL +:+ JS.dq +:+ "?>"
      +:+ resolvedNestedXml +:+ "<?xml-xi-nested-leave?>"
  else
    "<?xml-xi-map-enter uri=" +:+ JS.dq +:+ hrefURL +:+ JS.dq
      +:+ " parent-line=" +:+ JS.dq +:+ JS.of_nat line +:+ JS.dq
      +:+ " parent-col=" +:+ JS.dq +:+ JS.of_nat col +:+ JS.dq +:+ "?>"
      +:+ resolvedNestedXml +:+ "<?xml-xi-map-leave?>".

(** [handleErr]: [positionNow] is what [resolverParser.position] returns
    when the rejection handler runs; [col] was captured by the closure. *)
Definition handleErr (positionNow col : nat) (err : Exn) : string :=
  errorPI (exn_to_string err) positionNow col.

(** The result of a call: the effects performed and the settled promise. *)
Definition Outcome : Type := list Effect * Completion string.

Section Resolver.

Variable h : Host.

(** The recursive call [resolveXIncludes(text, depth + 1, uri)]. *)
Variable recur : nat -> string -> option Uri -> option Outcome.

Variables (depth : nat) (xmlSource : string) (baseUri : option Uri).

(** The second [then] of both promise chains: strip the declaration,
    select, recurse. *)
Definition include_text (xpointerAttr : option SaxesAttributeNS)
    (nestedBase : Uri) (doc : string) : option Outcome :=
  let text := strip_declaration doc in
  let selected :=
    match xpointerAttr with
    | Some xp =>
        if JS.is_empty (attr_value xp) then Normal text
        else selectXPointerFragment (saxes h) text (attr_value xp)
    | None => Normal text
    end in
  match selected with
  | Normal text' => recur (depth + 1)%nat text' (Some nestedBase)
  | Throw err => Some ([], Throw err)
  end.

(** The head of the promise chain: the text acquired and the base
    location of the nested call, by [fetch] for [http] and [https] and by
    [openTextDocument] otherwise. *)
Definition is_remote (includeUri : Uri) : bool :=
  bool_decide (uri_scheme includeUri = "http")
  || bool_decide (uri_scheme includeUri = "https").

Definition acquire (hrefURL : string) (includeUri : Uri) : Completion (string * Uri) :=
  if is_remote includeUri then
    response ← fetch h hrefURL;
    doc ← (if negb (response_ok response)
           then Throw (Error ("Failed to fetch " +:+ hrefURL +:+ ": "
                                +:+ statusText response))
           else response_text response);
    Normal (doc, includeUri)
  else
    doc ← openTextDocument h includeUri;
    Normal (getText doc, doc_uri doc).

(** [includedContentPromise]: acquisition, then [include_text], then
    [makePI], with [handleErr] catching a rejection of any stage. *)
Definition included_content (hrefURL : string) (includeUri : Uri)
    (xpointerAttr : option SaxesAttributeNS) (line col : nat)
    (positionNow : nat) : option (list Effect * string) :=
  let chained : option Outcome :=
    match acquire hrefURL includeUri with
    | Normal (doc, nestedBase) => include_text xpointerAttr nestedBase doc
    | Throw err => Some ([], Throw err)
    end in
  '(effs, result) ← chained;
  Some (effs,
        match result with
        | Normal resolvedNestedXml => makePI depth hrefURL line col resolvedNestedXml
        | Throw err => handleErr positionNow col err
        end).

(** The [opentag] handler from the point where resolution is known to be
    enabled: the [parse] attribute, then the [href] attribute. *)
Definition res_opentag_enabled (node : SaxesTag) (pp : ParserPos) (s : ResState)
    : ResState :=
  let parseMode :=
    match get_attribute node "parse" with
    | Some parseAttr => attr_value parseAttr
    | None => "xml"
    end in
  if negb (bool_decide (parseMode = "xml")) then
    push_part (Str (errorPI ("Unsupported XInclude parse value: " +:+ parseMode)
                            (position pp) (column pp))) s
  else
    match get_attribute node "href" with
    | Some hrefAttr =>
        let hrefURL := resolveXIncludeHref h (attr_value hrefAttr) baseUri in
        let includeUri := Uri_parse h hrefURL in
        let request :=
          if is_remote includeUri
          then Fetch hrefURL else OpenTextDocument includeUri in
        push_part
          (Promise (included_content hrefURL includeUri
                      (get_attribute node "xpointer") (line pp) (column pp)))
          (perform request s)
    | None => s
    end.

Definition res_opentag (s0 : ResState) (node : SaxesTag) (pp : ParserPos) : ResState :=
  if is_xinclude h node then
    let s := set_foundXi s0 in
    if (depth <? depthLimit h)%nat then
      let tagStartPosition := JS.lastIndexOf xmlSource "<"%char (Z.of_nat (position pp) - 1) in
      if tagStartPosition =? -1 then
        perform (ConsoleError "Could not find start of xi:include tag.") s
      else
        let s := push_part (Str (JS.substring xmlSource (lastPos s) tagStartPosition)) s in
        let s := if isSelfClosing node then set_lastPos (Z.of_nat (position pp)) s else s in
        if negb (xincludeSupport h) then
          push_part (Str (warningPI (line pp) (column pp))) s
        else res_opentag_enabled node pp s
    else
      perform (ShowInformationMessage
                 "Maximum XInclude depth reached, skipping further includes.") s
  else s0.

Definition res_closetag (s : ResState) (node : SaxesTag) (pp : ParserPos) : ResState :=
  if is_xinclude h node then
    if (depth =? 0)%nat then set_lastPos (Z.of_nat (position pp)) s else s
  else s.

Definition res_event (s : ResState) (ev : SaxesEvent) : ResState :=
  match ev with
  | OpenTag node pp => res_opentag s node pp
  | CloseTag node pp => res_closetag s node pp
  end.

(** The closure variables once [write(..).close()] has returned or thrown. *)
Definition res_scan : ResState :=
  fold_left res_event (events (saxes h xmlSource)) res_init.

Definition settle_part (positionNow : nat) (p : Part) : option (list Effect * string) :=
  match p with
  | Str s => Some ([], s)
  | Promise settle => settle positionNow
  end.

(** [Promise.all]: each input writes its value into its own slot when it
    settles; the result is the array of slots once all are filled. *)
Definition fill_slot (values : list string) (slots : list (option string)) (i : nat)
    : list (option string) :=
  match values !! i with
  | Some v => <[i := Some v]> slots
  | None => slots
  end.

Definition Promise_all (order : list nat) (values : list string) : option (list string) :=
  let slots := fold_left (fill_slot values) order (replicate (length values) None) in
  mapM id slots.

(** The [catch] clause: [true] when it returns [xmlSource]. *)
Definition degrades (s : ResState) : bool :=
  match failure (saxes h xmlSource) with
  | Some err => (0 <? depth)%nat || negb (foundXi s)
  | None => false
  end.

Definition resolve_body : option Outcome :=
  let s := res_scan in
  let positionNow := position (final (saxes h xmlSource)) in
  if degrades s then
    (* the promises already created are not awaited, but they run *)
    settled ← mapM (settle_part positionNow) (outputParts s);
    Some (effects s ++ concat (fst <$> settled), Normal xmlSource)
  else
    let parts := outputParts s ++ [Str (JS.substring_from xmlSource (lastPos s))] in
    settled ← mapM (settle_part positionNow) parts;
    resolvedParts ← Promise_all (settle_order h depth xmlSource (length parts))
                                (snd <$> settled);
    Some (effects s ++ concat (fst <$> settled), Normal (JS.join "" resolvedParts)).

End Resolver.

(** The recursion of [resolveXIncludes] through the promise chains is
    bounded by the depth limit; the model unrolls it [fuel] times. *)
Fixpoint resolve_fuel (h : Host) (fuel : nat)
    : nat -> string -> option Uri -> option Outcome :=
  match fuel with
  | O => fun _ _ _ => None
  | S fuel' => resolve_body h (resolve_fuel h fuel')
  end.

Definition resolveXIncludes (h : Host) (xmlSource : string) (depth : nat)
    (baseUri : option Uri) : option Outcome :=
  resolve_fuel h (S (depthLimit h - depth)) depth xmlSource baseUri.

(** ** Well-formed documents

    On a well-formed text the parser delivers, for every element, an
    [opentag] event, the events of its children in order, and a [closetag]
    event. A document is the list of its top-level elements. *)

Unset Elimination Schemes.
Inductive Element :=
| Elem (node : SaxesTag) (opened closed : ParserPos) (children : list Element).
Set Elimination Schemes.

Definition elem_node (e : Element) : SaxesTag := let 'Elem n _ _ _ := e in n.
Definition elem_opened (e : Element) : ParserPos := let 'Elem _ o _ _ := e in o.
Definition elem_closed (e : Element) : ParserPos := let 'Elem _ _ c _ := e in c.
Definition children (e : Element) : list Element := let 'Elem _ _ _ ch := e in ch.

Fixpoint events_of (e : Element) : list SaxesEvent :=
  match e with
  | Elem node opened closed ch =>
      OpenTag node opened :: flat_map events_of ch ++ [CloseTag node closed]
  end.

Definition document_events (doc : list Element) : list SaxesEvent :=
  flat_map events_of doc.

(** The scan of a well-formed document. *)
Definition document_scan (doc : list Element) (final : ParserPos) : Scan :=
  MkScan (document_events doc) None final.



Definition first_some {A B} (g : A -> option B) : list A -> option B :=
  fix go (l : list A) : option B :=
    match l with
    | [] => None
    | x :: xs =>
        match g x with
        | Some y => Some y
        | None => go xs
        end
    end.

(** The first element in document order that carries the id. *)
Fixpoint first_with_id (id : string) (e : Element) : option Element :=
  match e with
  | Elem node _ _ ch =>
      if matchesId (attributes node) id then Some e
      else first_some (first_with_id id) ch
  end.

Definition anchor_of (id : string) (doc : list Element) : option Element :=
  first_some (first_with_id id) doc.

(** The substring the selector returns for an element: from the nearest
    [<] before the end of its start tag up to the end of its start tag when
    it is self-closing, and up to the end of its end tag otherwise. *)
Definition span_of (xmlSource : string) (e : Element) : Completion string :=
  let pos := Z.of_nat (position (elem_opened e)) in
  let start := JS.lastIndexOf xmlSource "<"%char (pos - 1) in
  if start =? -1 then Throw (Error "Could not find start of xpointer target.")
  else Normal (JS.substring xmlSource start
                 (if isSelfClosing (elem_node e) then pos
                  else Z.of_nat (position (elem_closed e)))).






(** The resolver sees no inclusion element in a list of events. *)
Definition no_xinclude (h : Host) (evs : list SaxesEvent) : bool :=
  forallb (fun ev =>
             match ev with
             | OpenTag node _ | CloseTag node _ => negb (is_xinclude h node)
             end) evs.

(** The number of inclusion elements opened in a list of events. *)
Definition count_xinclude (h : Host) (evs : list SaxesEvent) : nat :=
  length (List.filter (fun ev =>
                    match ev with
                    | OpenTag node _ => is_xinclude h node
                    | CloseTag _ _ => false
                    end) evs).

Definition is_request (e : Effect) : bool :=
  match e with
  | Fetch _ | OpenTextDocument _ => true
  | _ => false
  end.


(** The recursive calls available to the call at [depth], and the closure
    variables of that call once its scan is over. *)
Definition nested_calls (h : Host) (depth : nat)
    : nat -> string -> option Uri -> option Outcome :=
  resolve_fuel h (depthLimit h - depth).

Definition scan_state (h : Host) (xmlSource : string) (depth : nat)
    (baseUri : option Uri) : ResState :=
  res_scan h (nested_calls h depth) depth xmlSource baseUri.


(** The start of the tag whose [opentag] event is delivered at [pp]. *)
Definition tag_start (xmlSource : string) (pp : ParserPos) : Z :=
  JS.lastIndexOf xmlSource "<"%char (Z.of_nat (position pp) - 1).


(** A part settles, whatever the parser position read at that time. *)
Definition settles (p : Part) : Prop :=
  forall positionNow, is_Some (settle_part positionNow p).

(** [parseAttr?.value ?? DEFAULT] is the default parse mode. *)
Definition parse_mode_xml (node : SaxesTag) : bool :=
  match get_attribute node "parse" with
  | Some parseAttr => bool_decide (attr_value parseAttr = "xml")
  | None => true
  end.


(** ** Chains of nested directives

    A link is a text whose scan succeeds and delivers exactly one inclusion
    element: self-closing, in the default parse mode, with an [href] and no
    [xpointer], whose target is acquired and, once its declaration is
    stripped, is the text of the next link. *)









(** The [opentag] handler on an inclusion element below the depth limit
    whose start tag is located: the literal text is flushed and the cursor
    moved before the configuration and the attributes are looked at. *)
Definition flushed (xmlSource : string) (s : ResState) (node : SaxesTag)
    (pp : ParserPos) : ResState :=
  MkRes (outputParts s ++ [Str (JS.substring xmlSource (lastPos s) (tag_start xmlSource pp))])
        (if isSelfClosing node then Z.of_nat (position pp) else lastPos s)
        true (effects s).


(** ** Sample hosts and documents *)

Module Sample.

Definition XI : string := "http://www.w3.org/2001/XInclude".

(** The parser readings after the text [pre] has been consumed (all
    sample documents fit on one line). *)
Definition after (pre : string) : ParserPos :=
  MkPos (String.length pre) 1 (String.length pre).

Definition plain (name : string) (attrs : list SaxesAttributeNS) (selfClosing : bool)
    : SaxesTag :=
  MkTag "" name attrs selfClosing.

Definition attr (name value : string) : SaxesAttributeNS :=
  MkAttr name "" name "" value.

Definition xml_id (value : string) : SaxesAttributeNS :=
  MkAttr "xml:id" "xml" "id" XML_NS value.

Definition xi_include (attrs : list SaxesAttributeNS) (selfClosing : bool) : SaxesTag :=
  MkTag XI "include" attrs selfClosing.

(** What the parser reports when its run is over. *)
Definition done : ParserPos := MkPos 0 1 0.

Definition file (path : string) : Uri := MkUri "file" ("file:///w/" +:+ path).

Fixpoint lookup_text {A} (table : list (string * A)) (key : string) : option A :=
  match table with
  | [] => None
  | (k, v) :: rest => if bool_decide (k = key) then Some v else lookup_text rest key
  end.

(** A host over a workspace folder [file:///w/]: [texts] lists what the
    parser does on each text that occurs, [files] the documents that can
    be opened. Settlement is in reverse order of submission. *)
Definition host (texts : list (string * Scan)) (files : list (string * string))
    (depthSetting : nat) (support : bool) : Host :=
  {| XINCLUDE_NS := XI;
     XINCLUDE_LOCAL := "include";
     normalizeSchemaUrl := fun href => href;
     saxes := fun text =>
       default (MkScan [] (Some (Error "document must contain a root element.")) done)
               (lookup_text texts text);
     URL_absolute := fun _ => None;
     URL_relative := fun href _ => Some ("file:///w/" +:+ href);
     Uri_parse := fun url => MkUri "file" url;
     fetch := fun _ => Throw (MkExn "TypeError" "fetch failed");
     openTextDocument := fun uri =>
       match lookup_text files (uri_toString uri) with
       | Some text => Normal (MkDoc text uri)
       | None => Throw (MkExn "CodeExpectedError"
                          ("cannot open " +:+ uri_toString uri))
       end;
     xincludeDepth := depthSetting;
     xincludeSupport := support;
     settle_order := fun _ _ n => rev (seq 0 n);
     settle_order_perm := fun _ _ n => Permutation_sym (Permutation_rev (seq 0 n)) |}.

(** [main.xml]: one directive, then an empty element. *)
Definition main_open : string := "<r xmlns:xi='http://www.w3.org/2001/XInclude'>".
Definition main_include : string := "<xi:include href='a.xml'/>".
Definition main_xml : string := main_open +:+ main_include +:+ "<p/></r>".
Definition main_node : SaxesTag := xi_include [attr "href" "a.xml"] true.
Definition main_before : list SaxesEvent :=
  [OpenTag (plain "r" [] false) (after main_open)].
Definition main_after : list SaxesEvent :=
  [OpenTag (plain "p" [] true) (after (main_open +:+ main_include +:+ "<p/>"));
   CloseTag (plain "p" [] true) (after (main_open +:+ main_include +:+ "<p/>"));
   CloseTag (plain "r" [] false) (after main_xml)].
Definition main_at : ParserPos := after (main_open +:+ main_include).
Definition main_scan : Scan :=
  MkScan (main_before ++ [OpenTag main_node main_at; CloseTag main_node main_at]
            ++ main_after) None done.

(** [a.xml]: a declaration, then a document with one directive. *)
Definition a_open : string := "<a xmlns:xi='http://www.w3.org/2001/XInclude'>".
Definition a_include : string := "<xi:include href='b.xml'/>".
Definition a_text : string := a_open +:+ a_include +:+ "</a>".
Definition a_xml : string := "<?xml version='1.0'?>" +:+ a_text.
Definition a_node : SaxesTag := xi_include [attr "href" "b.xml"] true.
Definition a_at : ParserPos := after (a_open +:+ a_include).
Definition a_scan : Scan :=
  MkScan ([OpenTag (plain "a" [] false) (after a_open)]
            ++ [OpenTag a_node a_at; CloseTag a_node a_at]
            ++ [CloseTag (plain "a" [] false) (after a_text)]) None done.

(** [b.xml]: no directive. *)
Definition b_xml : string := "<b>text</b>".
Definition b_scan : Scan :=
  MkScan [OpenTag (plain "b" [] false) (after "<b>");
          CloseTag (plain "b" [] false) (after b_xml)] None done.

Definition texts : list (string * Scan) :=
  [(main_xml, main_scan); (a_text, a_scan); (b_xml, b_scan)].

Definition files : list (string * string) :=
  [("file:///w/a.xml", a_xml); ("file:///w/b.xml", b_xml)].



(** [main.xml] as above, with the parser's final readings left open. *)
Definition main_scan_ending (final : ParserPos) : Scan :=
  MkScan (events main_scan) None final.

(** [broken.xml]: a directive, then an element that is never closed; the
    parser throws when the input ends. *)
Definition broken_xml : string := main_open +:+ main_include +:+ "<p>text".
Definition broken_scan : Scan :=
  MkScan (main_before
            ++ [OpenTag main_node main_at; CloseTag main_node main_at;
                OpenTag (plain "p" [] false)
                        (after (main_open +:+ main_include +:+ "<p>"))])
         (Some (Error "1:79: unclosed tag: p"))
         (after broken_xml).

(** [c.xml]: a directive with separate start and end tags and no [href]. *)
Definition c_open : string := "<c xmlns:xi='http://www.w3.org/2001/XInclude'>".
Definition c_include_start : string := "<xi:include xpointer='s1'>".
Definition c_include : string := c_include_start +:+ "</xi:include>".
Definition c_xml : string := c_open +:+ c_include +:+ "</c>".
Definition c_node : SaxesTag := xi_include [attr "xpointer" "s1"] false.
Definition c_scan : Scan :=
  MkScan [OpenTag (plain "c" [] false) (after c_open);
          OpenTag c_node (after (c_open +:+ c_include_start));
          CloseTag c_node (after (c_open +:+ c_include));
          CloseTag (plain "c" [] false) (after c_xml)] None done.

(** [d.xml]: a self-closing directive with no [href]. *)
Definition d_open : string := "<d xmlns:xi='http://www.w3.org/2001/XInclude'>".
Definition d_include : string := "<xi:include xpointer='s1'/>".
Definition d_xml : string := d_open +:+ d_include +:+ "</d>".
Definition d_node : SaxesTag := xi_include [attr "xpointer" "s1"] true.
Definition d_at : ParserPos := after (d_open +:+ d_include).
Definition d_scan : Scan :=
  MkScan ([OpenTag (plain "d" [] false) (after d_open)]
            ++ [OpenTag d_node d_at; CloseTag d_node d_at]
            ++ [CloseTag (plain "d" [] false) (after d_xml)]) None done.

Definition more_texts : list (string * Scan) :=
  [(broken_xml, broken_scan); (c_xml, c_scan); (d_xml, d_scan)] ++ texts.

(** [sections.xml]: a root with two sections, the first with a paragraph. *)
Definition s_root : string := "<root>".
Definition s_intro : string := "<section xml:id='intro'>".
Definition s_p : string := "<p>Intro text.</p>".
Definition s_body : string := "<section id='body'/>".
Definition sections_xml : string :=
  s_root +:+ s_intro +:+ s_p +:+ "</section>" +:+ s_body +:+ "</root>".

Definition p_element : Element :=
  Elem (plain "p" [] false)
       (after (s_root +:+ s_intro +:+ "<p>"))
       (after (s_root +:+ s_intro +:+ s_p)) [].
Definition intro_element : Element :=
  Elem (plain "section" [xml_id "intro"] false)
       (after (s_root +:+ s_intro))
       (after (s_root +:+ s_intro +:+ s_p +:+ "</section>")) [p_element].
Definition body_element : Element :=
  Elem (plain "section" [attr "id" "body"] true)
       (after (s_root +:+ s_intro +:+ s_p +:+ "</section>" +:+ s_body))
       (after (s_root +:+ s_intro +:+ s_p +:+ "</section>" +:+ s_body)) [].
Definition root_element : Element :=
  Elem (plain "root" [] false) (after s_root) (after sections_xml)
       [intro_element; body_element].

(** A parser that knows [sections.xml] only. *)
Definition sections_parser (text : string) : Scan :=
  document_scan [root_element] done.

(** [e.xml]: a directive that selects the first section of [sections.xml]. *)
Definition e_open : string := "<e xmlns:xi='http://www.w3.org/2001/XInclude'>".
Definition e_include : string := "<xi:include href='sections.xml' xpointer='intro'/>".
Definition e_xml : string := e_open +:+ e_include +:+ "</e>".
Definition e_node : SaxesTag :=
  xi_include [attr "href" "sections.xml"; attr "xpointer" "intro"] true.
Definition e_at : ParserPos := after (e_open +:+ e_include).
Definition e_scan : Scan :=
  MkScan ([OpenTag (plain "e" [] false) (after e_open)]
            ++ [OpenTag e_node e_at; CloseTag e_node e_at]
            ++ [CloseTag (plain "e" [] false) (after e_xml)]) None done.

(** The first section of [sections.xml] as a text of its own. *)
Definition intro_xml : string := s_intro +:+ s_p +:+ "</section>".
Definition intro_scan : Scan :=
  MkScan [OpenTag (plain "section" [xml_id "intro"] false) (after s_intro);
          OpenTag (plain "p" [] false) (after (s_intro +:+ "<p>"));
          CloseTag (plain "p" [] false) (after (s_intro +:+ s_p));
          CloseTag (plain "section" [xml_id "intro"] false) (after intro_xml)] None done.

Definition section_texts : list (string * Scan) :=
  [(e_xml, e_scan); (sections_xml, document_scan [root_element] done);
   (intro_xml, intro_scan)].

Definition section_files : list (string * string) :=
  [("file:///w/sections.xml", sections_xml)].

(** [f.xml]: a directive in a parse mode other than the default. *)
Definition f_open : string := "<f xmlns:xi='http://www.w3.org/2001/XInclude'>".
Definition f_include : string := "<xi:include href='a.xml' parse='text'/>".
Definition f_xml : string := f_open +:+ f_include +:+ "</f>".
Definition f_node : SaxesTag :=
  xi_include [attr "href" "a.xml"; attr "parse" "text"] true.
Definition f_at : ParserPos := after (f_open +:+ f_include).
Definition f_scan : Scan :=
  MkScan ([OpenTag (plain "f" [] false) (after f_open)]
            ++ [OpenTag f_node f_at; CloseTag f_node f_at]
            ++ [CloseTag (plain "f" [] false) (after f_xml)]) None done.


End Sample.






(** Induction over a document: the empty list of siblings, and an element
    before its later siblings, given the property for its children and for
    those siblings. *)
Section ForestInduction.

Variable P : list Element -> Prop.
Hypothesis Hnil : P [].
Hypothesis Hcons : forall node opened closed ch ts,
    P ch -> P ts -> P (Elem node opened closed ch :: ts).

Fixpoint element_before (e : Element) : forall ts, P ts -> P (e :: ts) :=
  match e with
  | Elem node opened closed ch =>
      fun ts Hts =>
        Hcons node opened closed ch ts
          ((fix go (l : list Element) : P l :=
              match l with
              | [] => Hnil
              | x :: xs => element_before x xs (go xs)
              end) ch)
          Hts
  end.

Fixpoint forest_ind (doc : list Element) : P doc :=
  match doc with
  | [] => Hnil
  | e :: ts => element_before e ts (forest_ind ts)
  end.

End ForestInduction.

(** Where the span of a selected element ends. *)
Definition span_end (e : Element) : Z :=
  if isSelfClosing (elem_node e) then Z.of_nat (position (elem_opened e))
  else Z.of_nat (position (elem_closed e)).







(** ** Further vocabulary for statements about the helpers *)

(** A code unit in the ASCII range, the test of [iriToUri]. *)
Definition is_ascii_unit (c : ascii) : bool := (nat_of_ascii c <=? 127)%nat.


(** The text a directive includes from the document acquired: the
    declaration stripped, then the [xpointer] selection when the attribute
    is there and its value is not empty. *)
Definition selected_text (h : Host) (xpointerAttr : option SaxesAttributeNS)
    (doc : string) : Completion string :=
  let text := strip_declaration doc in
  match xpointerAttr with
  | Some xp =>
      if JS.is_empty (attr_value xp) then Normal text
      else selectXPointerFragment (saxes h) text (attr_value xp)
  | None => Normal text
  end.

(** The request a directive makes for the location its [href] resolves to. *)
Definition include_request (h : Host) (hrefURL : string) : Effect :=
  if is_remote (Uri_parse h hrefURL) then Fetch hrefURL
  else OpenTextDocument (Uri_parse h hrefURL).

(** A text whose scan succeeds and delivers one inclusion element, which is
    self-closing, in the default parse mode, and whose start tag is located
    in the text. *)
Definition sole_directive (h : Host) (xmlSource : string) (node : SaxesTag)
    (pp final : ParserPos) : Prop :=
  (exists before after,
      saxes h xmlSource
        = MkScan (before ++ [OpenTag node pp; CloseTag node pp] ++ after) None final
      /\ no_xinclude h before = true
      /\ no_xinclude h after = true)
  /\ is_xinclude h node = true
  /\ isSelfClosing node = true
  /\ parse_mode_xml node = true
  /\ tag_start xmlSource pp <> -1.

(** The request the [opentag] handler makes at an event, if any. *)
Definition request_of (h : Host) (depth : nat) (xmlSource : string)
    (baseUri : option Uri) (ev : SaxesEvent) : option Effect :=
  match ev with
  | OpenTag node pp =>
      if is_xinclude h node && (depth <? depthLimit h)%nat
         && negb (tag_start xmlSource pp =? -1)
         && xincludeSupport h && parse_mode_xml node
      then (fun hrefAttr =>
              include_request h (resolveXIncludeHref h (attr_value hrefAttr) baseUri))
             <$> get_attribute node "href"
      else None
  | CloseTag _ _ => None
  end.

(** * Properties *)

(** ** Strings *)

Lemma string_substring_all (s : string) : String.substring 0 (String.length s) s = s.
Proof. induction s as [|c s IH]; simpl; [done | by rewrite IH]. Qed.

Lemma substring_from_start (s : string) : JS.substring_from s 0 = s.
Proof.
  unfold JS.substring_from, JS.substring, JS.clamp, JS.len.
  replace (Z.max 0 (Z.min 0 (Z.of_nat (String.length s)))) with 0 by lia.
  replace (Z.max 0 (Z.min (Z.of_nat (String.length s)) (Z.of_nat (String.length s))))
    with (Z.of_nat (String.length s)) by lia.
  replace (Z.min 0 (Z.of_nat (String.length s))) with 0 by lia.
  replace (Z.max 0 (Z.of_nat (String.length s))) with (Z.of_nat (String.length s)) by lia.
  rewrite Z.sub_0_r, Nat2Z.id. simpl. apply string_substring_all.
Qed.

(** ** [Promise.all] fills every slot whatever the order of settlement *)

Lemma fill_slots_length values order slots :
  length (fold_left (fill_slot values) order slots) = length slots.
Proof.
  revert slots. induction order as [|i order IH]; intros slots; simpl; [done|].
  rewrite IH. unfold fill_slot. destruct (values !! i); [apply length_insert | done].
Qed.

Lemma fill_slots_other values order slots j :
  j ∉ order ->
  fold_left (fill_slot values) order slots !! j = slots !! j.
Proof.
  revert slots. induction order as [|i order IH]; intros slots Hj; simpl; [done|].
  apply not_elem_of_cons in Hj as [Hne Hj]. rewrite IH by done.
  unfold fill_slot. destruct (values !! i); [|done].
  by apply list_lookup_insert_ne.
Qed.

Lemma fill_slots_filled values order slots j v :
  length slots = length values ->
  values !! j = Some v ->
  j ∈ order ->
  fold_left (fill_slot values) order slots !! j = Some (Some v).
Proof.
  revert slots. induction order as [|i order IH]; intros slots Hlen Hv Hj; simpl.
  - by apply elem_of_nil in Hj.
  - destruct (decide (j ∈ order)) as [Hin|Hout].
    + apply IH; [|done|done].
      unfold fill_slot. destruct (values !! i); [by rewrite length_insert | done].
    + apply elem_of_cons in Hj as [->|Hj]; [|done].
      rewrite fill_slots_other by done.
      unfold fill_slot. rewrite Hv.
      apply list_lookup_insert_eq. rewrite Hlen. by eapply lookup_lt_Some.
Qed.

Lemma Promise_all_complete (order : list nat) (values : list string) :
  Permutation order (seq 0 (length values)) ->
  Promise_all order values = Some values.
Proof.
  intros Hperm. unfold Promise_all.
  assert (fold_left (fill_slot values) order (replicate (length values) None)
          = Some <$> values) as ->.
  { apply list_eq. intros j. rewrite list_lookup_fmap.
    destruct (values !! j) as [v|] eqn:Hv; simpl.
    - apply fill_slots_filled; [by rewrite length_replicate | done |].
      rewrite Hperm. apply elem_of_seq. apply lookup_lt_Some in Hv. lia.
    - apply lookup_ge_None. rewrite fill_slots_length, length_replicate.
      by apply lookup_ge_None. }
  by apply mapM_fmap_Some.
Qed.

(** ** The resolver: unfolding one call *)

Lemma resolveXIncludes_unfold h xmlSource depth baseUri :
  resolveXIncludes h xmlSource depth baseUri
  = resolve_body h (nested_calls h depth) depth xmlSource baseUri.
Proof. reflexivity. Qed.

Lemma nested_calls_below h depth xmlSource baseUri :
  (depth < depthLimit h)%nat ->
  nested_calls h depth (S depth) xmlSource baseUri
  = resolveXIncludes h xmlSource (S depth) baseUri.
Proof.
  intros Hlt. unfold nested_calls, resolveXIncludes.
  by replace (depthLimit h - depth)%nat with (S (depthLimit h - S depth)) by lia.
Qed.

(** The join barrier never blocks and keeps the submission order. *)
Lemma resolve_body_joined h recur depth xmlSource baseUri :
  resolve_body h recur depth xmlSource baseUri =
    let s := res_scan h recur depth xmlSource baseUri in
    let positionNow := position (final (saxes h xmlSource)) in
    if degrades h depth xmlSource s then
      settled ← mapM (settle_part positionNow) (outputParts s);
      Some (effects s ++ concat (fst <$> settled), Normal xmlSource)
    else
      settled ← mapM (settle_part positionNow)
                  (outputParts s ++ [Str (JS.substring_from xmlSource (lastPos s))]);
      Some (effects s ++ concat (fst <$> settled), Normal (JS.join "" (snd <$> settled))).
Proof.
  unfold resolve_body. cbv zeta.
  destruct (degrades _ _ _ _); [done|].
  destruct (mapM _ _) as [settled|] eqn:Hsettled; [|done]. cbn.
  rewrite Promise_all_complete; [done|].
  rewrite length_fmap, <- (length_mapM _ _ _ Hsettled).
  apply settle_order_perm.
Qed.


(** ** The scan without inclusion elements *)

Lemma res_scan_no_xinclude h recur depth xmlSource baseUri evs s :
  no_xinclude h evs = true ->
  fold_left (res_event h recur depth xmlSource baseUri) evs s = s.
Proof.
  revert s. induction evs as [|ev evs IH]; intros s Hno; [done|].
  cbn in Hno. apply andb_prop in Hno as [Hev Hno]. cbn [fold_left].
  rewrite <- (IH s Hno) at 2. f_equal.
  destruct ev as [node pp|node pp]; cbn;
    unfold res_opentag, res_opentag_enabled, res_closetag; by destruct (is_xinclude h node).
Qed.

(** ** Every promise settles *)

Lemma include_text_settles h recur depth xp nestedBase doc :
  (forall t b, is_Some (recur (S depth) t b)) ->
  is_Some (include_text h recur depth xp nestedBase doc).
Proof.
  intros Hrec. unfold include_text.
  replace (depth + 1)%nat with (S depth) by lia.
  repeat case_match; eauto.
Qed.

Lemma included_content_settles h recur depth hrefURL includeUri xp line col pos :
  (forall t b, is_Some (recur (S depth) t b)) ->
  is_Some (included_content h recur depth hrefURL includeUri xp line col pos).
Proof.
  intros Hrec. unfold included_content.
  destruct (acquire h hrefURL includeUri) as [[doc nb]|err]; cbn.
  - destruct (include_text_settles h recur depth xp nb doc Hrec) as [[effs r] ->]. cbn. eauto.
  - eauto.
Qed.

Lemma res_event_settles h recur depth xmlSource baseUri s ev :
  ((depth < depthLimit h)%nat -> forall t b, is_Some (recur (S depth) t b)) ->
  Forall settles (outputParts s) ->
  Forall settles (outputParts (res_event h recur depth xmlSource baseUri s ev)).
Proof.
  intros Hrec Hs.
  assert (forall str, settles (Str str)) as Hstr by (intros str pos; cbn; eauto).
  destruct ev as [node pp|node pp]; cbn; unfold res_opentag, res_opentag_enabled, res_closetag.
  - destruct (is_xinclude h node); [|done].
    destruct (depth <? depthLimit h)%nat eqn:Hd; [|done].
    apply Nat.ltb_lt in Hd.
    repeat case_match; cbn; rewrite ?Forall_app, ?Forall_singleton;
      repeat split; auto.
    all: intros pos; cbn; apply included_content_settles; auto.
  - repeat case_match; done.
Qed.

Lemma res_scan_settles h recur depth xmlSource baseUri :
  ((depth < depthLimit h)%nat -> forall t b, is_Some (recur (S depth) t b)) ->
  Forall settles (outputParts (res_scan h recur depth xmlSource baseUri)).
Proof.
  intros Hrec. unfold res_scan.
  assert (Forall settles (outputParts res_init)) as Hinit by constructor.
  revert Hinit. generalize res_init.
  induction (events (saxes h xmlSource)) as [|ev evs IH]; intros s Hs; [done|].
  cbn [fold_left]. apply IH. by apply res_event_settles.
Qed.

Lemma mapM_settle_total pos parts :
  Forall settles parts -> is_Some (mapM (settle_part pos) parts).
Proof.
  intros Hall. apply mapM_is_Some. eapply Forall_impl; [exact Hall|].
  intros p Hp. apply Hp.
Qed.

(** With fuel beyond the distance to the depth limit, a call returns. *)
Lemma resolve_fuel_total h fuel : forall depth xmlSource baseUri,
  (depthLimit h - depth < fuel)%nat ->
  exists effs out, resolve_fuel h fuel depth xmlSource baseUri = Some (effs, Normal out).
Proof.
  induction fuel as [|fuel IH]; intros depth xmlSource baseUri Hfuel; [lia|].
  cbn [resolve_fuel]. rewrite resolve_body_joined. cbv zeta.
  assert (Forall settles (outputParts
            (res_scan h (resolve_fuel h fuel) depth xmlSource baseUri))) as Hparts.
  { apply res_scan_settles. intros Hd t b.
    destruct (IH (S depth) t b) as (effs & out & ->); [lia | eauto]. }
  destruct (degrades _ _ _ _).
  - destruct (mapM_settle_total (position (final (saxes h xmlSource))) _ Hparts)
      as [settled ->]. cbn. eauto.
  - match goal with |- context [mapM ?f ?l] =>
      destruct (mapM_settle_total (position (final (saxes h xmlSource))) l) as [settled ->]
    end.
    + apply Forall_app. split; [done|]. apply Forall_singleton. intros pos; cbn; eauto.
    + cbn. eauto.
Qed.

Lemma resolveXIncludes_total h xmlSource depth baseUri :
  exists effs out, resolveXIncludes h xmlSource depth baseUri = Some (effs, Normal out).
Proof. apply resolve_fuel_total. lia. Qed.

(** ** Scans: what the handlers leave behind *)

Lemma mapM_snoc {A B} (f : A -> option B) (l : list A) (x : A) :
  mapM f (l ++ [x]) = (l' ← mapM f l; y ← f x; Some (l' ++ [y])).
Proof.
  induction l as [|a l IH]; cbn.
  - by destruct (f x).
  - destruct (f a) as [b|]; cbn; [|done]. rewrite IH.
    destruct (mapM f l) as [l'|]; cbn; [|done]. by destruct (f x).
Qed.

Lemma res_scan_app h recur depth xmlSource baseUri evs1 evs2 s :
  fold_left (res_event h recur depth xmlSource baseUri) (evs1 ++ evs2) s
  = fold_left (res_event h recur depth xmlSource baseUri) evs2
      (fold_left (res_event h recur depth xmlSource baseUri) evs1 s).
Proof. apply fold_left_app. Qed.

Lemma count_xinclude_cons h ev evs :
  count_xinclude h (ev :: evs)
  = ((match ev with OpenTag node _ => if is_xinclude h node then 1 else 0
               | CloseTag _ _ => 0 end) + count_xinclude h evs)%nat.
Proof.
  unfold count_xinclude. cbn. destruct ev as [node pp|node pp]; [|done].
  by destruct (is_xinclude h node).
Qed.

Lemma res_event_foundXi h recur depth xmlSource baseUri s ev :
  foundXi (res_event h recur depth xmlSource baseUri s ev)
  = foundXi s || (0 <? count_xinclude h [ev])%nat.
Proof.
  rewrite count_xinclude_cons. unfold count_xinclude. cbn.
  destruct ev as [node pp|node pp]; cbn; unfold res_opentag, res_opentag_enabled, res_closetag.
  - destruct (is_xinclude h node); cbn; [|by rewrite orb_false_r].
    rewrite orb_true_r. repeat case_match; done.
  - rewrite orb_false_r. repeat case_match; done.
Qed.

Lemma res_scan_foundXi h recur depth xmlSource baseUri evs s :
  foundXi (fold_left (res_event h recur depth xmlSource baseUri) evs s)
  = foundXi s || (0 <? count_xinclude h evs)%nat.
Proof.
  revert s. induction evs as [|ev evs IH]; intros s; cbn [fold_left].
  - by rewrite orb_false_r.
  - rewrite IH, res_event_foundXi, !count_xinclude_cons. cbn.
    rewrite <- orb_assoc. f_equal.
    destruct ev as [node pp|node pp]; [destruct (is_xinclude h node)|]; cbn; try done.
Qed.



(** ** The claims about the resolver *)

(** C2. A document in which the scan meets no inclusion element, whether the
    scan succeeds or fails, resolves to itself at every depth: the promise
    is fulfilled, with the input text, and nothing is requested. *)
Theorem C2_resolution_without_inclusions_is_identity h xmlSource depth baseUri :
  no_xinclude h (events (saxes h xmlSource)) = true ->
  resolveXIncludes h xmlSource depth baseUri = Some ([], Normal xmlSource).
Proof.
  intros Hno. rewrite resolveXIncludes_unfold, resolve_body_joined. cbv zeta.
  unfold res_scan. rewrite (res_scan_no_xinclude _ _ _ _ _ _ _ Hno).
  unfold degrades. destruct (failure (saxes h xmlSource)) as [err|]; cbn.
  - by rewrite orb_true_r.
  - by rewrite substring_from_start.
Qed.

(** C1 (amended). When the scan of the top-level document fails after an
    inclusion element has been met, the failure is swallowed: the promise is
    fulfilled with what was assembled so far, the parts pushed before the
    failure in order, followed by the text from the literal cursor on. *)
Theorem C1_top_level_failure_returns_partial_assembly h xmlSource baseUri err :
  failure (saxes h xmlSource) = Some err ->
  count_xinclude h (events (saxes h xmlSource)) <> 0%nat ->
  let s := scan_state h xmlSource 0 baseUri in
  exists settled,
    mapM (settle_part (position (final (saxes h xmlSource)))) (outputParts s)
      = Some settled
    /\ resolveXIncludes h xmlSource 0 baseUri
       = Some (effects s ++ concat (fst <$> settled),
               Normal (JS.join "" ((snd <$> settled)
                                     ++ [JS.substring_from xmlSource (lastPos s)]))).
Proof.
  intros Hfail Hcount s.
  destruct (mapM_settle_total (position (final (saxes h xmlSource))) (outputParts s))
    as [settled Hsettled].
  { apply res_scan_settles. intros Hd t b.
    rewrite nested_calls_below by done.
    destruct (resolveXIncludes_total h t 1 b) as (effs & out & ->). eauto. }
  exists settled. split; [done|].
  rewrite resolveXIncludes_unfold, resolve_body_joined. cbv zeta.
  fold (scan_state h xmlSource 0 baseUri). fold s.
  unfold degrades. rewrite Hfail.
  assert (foundXi s = true) as ->.
  { unfold s, scan_state, res_scan. rewrite res_scan_foundXi.
    destruct (count_xinclude h (events (saxes h xmlSource))); done. }
  cbn [Nat.ltb Nat.leb negb orb].
  rewrite mapM_snoc, Hsettled. cbn.
  by rewrite !fmap_app, concat_app, app_nil_r.
Qed.

(** The [opentag] handler on an inclusion element, case by case. *)
Lemma res_opentag_active h recur depth xmlSource baseUri s node pp :
  is_xinclude h node = true ->
  (depth < depthLimit h)%nat ->
  tag_start xmlSource pp <> -1 ->
  res_opentag h recur depth xmlSource baseUri s node pp =
    let s' := flushed xmlSource s node pp in
    if negb (xincludeSupport h) then
      push_part (Str (warningPI (line pp) (column pp))) s'
    else if negb (parse_mode_xml node) then
      push_part (Str (errorPI ("Unsupported XInclude parse value: "
                                 +:+ default "xml" (attr_value <$> get_attribute node "parse"))
                              (position pp) (column pp))) s'
    else
      match get_attribute node "href" with
      | Some hrefAttr =>
          let hrefURL := resolveXIncludeHref h (attr_value hrefAttr) baseUri in
          let includeUri := Uri_parse h hrefURL in
          push_part
            (Promise (included_content h recur depth hrefURL includeUri
                        (get_attribute node "xpointer") (line pp) (column pp)))
            (perform (if is_remote includeUri then Fetch hrefURL
                      else OpenTextDocument includeUri) s')
      | None => s'
      end.
Proof.
  intros Hxi Hd Hstart. unfold res_opentag, res_opentag_enabled. rewrite Hxi.
  apply Nat.ltb_lt in Hd. rewrite Hd.
  fold (tag_start xmlSource pp).
  destruct (Z.eqb_spec (tag_start xmlSource pp) (-1)) as [?|_]; [done|].
  cbv zeta. unfold flushed, parse_mode_xml.
  destruct (xincludeSupport h); cbn [negb].
  - destruct (get_attribute node "parse") as [parseAttr|]; cbn [default fmap option_fmap option_map];
      destruct (isSelfClosing node); done.
  - destruct (isSelfClosing node); done.
Qed.

(** ** Chains *)

Lemma res_closetag_selfclosing h depth s node pp :
  lastPos s = Z.of_nat (position pp) ->
  res_closetag h depth s node pp = s.
Proof.
  intros Hpos. unfold res_closetag. repeat case_match; try done.
  destruct s; cbn in *. by subst.
Qed.






(** ** Independence of the order of settlement *)














(** ** Resolution turned off *)












(** ** Directives without [href] *)




(** ** Failures *)

(** C1 as stated fails: the scan of [broken.xml] at depth 0 throws after its
    directive has been met, yet the promise is fulfilled, with the parts
    assembled up to the failure and the remaining text. *)
Lemma C1_counterexample :
  failure (saxes (Sample.host Sample.more_texts Sample.files 0 true) Sample.broken_xml)
    = Some (Error "1:79: unclosed tag: p")
  /\ count_xinclude (Sample.host Sample.more_texts Sample.files 0 true)
       (events Sample.broken_scan) = 1%nat
  /\ resolveXIncludes (Sample.host Sample.more_texts Sample.files 0 true)
       Sample.broken_xml 0 (Some (Sample.file "broken.xml"))
     = Some ([OpenTextDocument (Sample.file "a.xml");
              OpenTextDocument (Sample.file "b.xml")],
             Normal (Sample.main_open
                       +:+ makePI 0 "file:///w/a.xml" 1 72
                             (Sample.a_open
                                +:+ makePI 1 "file:///w/b.xml" 1 72 Sample.b_xml
                                +:+ "</a>")
                       +:+ "<p>text")).
Proof. repeat split. Qed.

Lemma C1_witness :
  exists settled,
    resolveXIncludes (Sample.host Sample.more_texts Sample.files 0 true)
       Sample.broken_xml 0 (Some (Sample.file "broken.xml"))
    = Some (effects (scan_state (Sample.host Sample.more_texts Sample.files 0 true)
                       Sample.broken_xml 0 (Some (Sample.file "broken.xml")))
              ++ concat (fst <$> settled),
            Normal (JS.join "" ((snd <$> settled) ++ ["<p>text"]))).
Proof.
  destruct (C1_top_level_failure_returns_partial_assembly
              (Sample.host Sample.more_texts Sample.files 0 true)
              Sample.broken_xml (Some (Sample.file "broken.xml"))
              (Error "1:79: unclosed tag: p")) as (settled & _ & Hres).
  - reflexivity.
  - vm_compute. discriminate.
  - exists settled. exact Hres.
Defined.

Lemma C2_witness :
  resolveXIncludes (Sample.host Sample.texts Sample.files 0 true)
    "<a><b></a>" 0 None
  = Some ([], Normal "<a><b></a>").
Proof.
  apply C2_resolution_without_inclusions_is_identity. reflexivity.
Defined.

(** C3, the defect. When the target of the directive of [main.xml] cannot
    be opened, the output holds a single error marker in its place, with the
    failure's description and with the column captured at the directive
    (72), but [parent-start] is whatever the parser's position is once the
    scan is over, not the position at the directive (72 as well). *)
Theorem C3_error_marker_reads_position_after_scan (final : ParserPos) :
  resolveXIncludes
    (Sample.host [(Sample.main_xml, Sample.main_scan_ending final)] [] 0 true)
    Sample.main_xml 0 (Some (Sample.file "main.xml"))
  = Some ([OpenTextDocument (Sample.file "a.xml")],
          Normal (Sample.main_open
                    +:+ errorPI "CodeExpectedError: cannot open file:///w/a.xml"
                          (position final) 72
                    +:+ "<p/></r>")).
Proof. reflexivity. Qed.

(** C4, the defect. The pattern that strips the declaration also matches a
    leading processing instruction whose target merely starts with [xml]:
    the style sheet instruction is removed from the acquired text. *)
Theorem C4_strips_leading_stylesheet_instruction :
  strip_declaration "<?xml-stylesheet href='s.xsl'?><doc/>" = "<doc/>"
  /\ strip_declaration "<?xml version='1.0'?><doc/>" = "<doc/>"
  /\ strip_declaration "<doc/>" = "<doc/>".
Proof. repeat split. Qed.

(** ** The selector: handlers and the stack of open elements *)

Lemma matchesPath_spec (path target : list nat) :
  matchesPath path target = bool_decide (path = target).
Proof.
  unfold matchesPath.
  destruct (Nat.eqb_spec (length path) (length target)) as [Hlen|Hlen]; cbn.
  - case_bool_decide as Heq.
    + subst. apply forallb_forall. intros [i step] Hin.
      apply list_elem_of_In, elem_of_lookup_imap in Hin as (j & x & [= <- <-] & Hx).
      by apply bool_decide_eq_true.
    + apply not_true_is_false. intros Hall. apply Heq.
      apply list_eq_same_length with (length path); [done | done |].
      intros i x y _ Hx Hy.
      assert (bool_decide (target !! i = Some x) = true) as Hi.
      { apply (proj1 (forallb_forall _ _) Hall (i, x)).
        apply list_elem_of_In, elem_of_lookup_imap. eauto. }
      apply bool_decide_eq_true in Hi. congruence.
  - symmetry. apply bool_decide_eq_false. intros ->. done.
Qed.

Lemma sel_run_app xmlSource scheme targetId evs1 evs2 s :
  sel_run xmlSource scheme targetId s (evs1 ++ evs2)
  = s' ← sel_run xmlSource scheme targetId s evs1;
    sel_run xmlSource scheme targetId s' evs2.
Proof.
  revert s. induction evs1 as [|ev evs1 IH]; intros s; cbn; [done|].
  destruct (sel_event xmlSource scheme targetId s ev) as [s'|err]; cbn; [apply IH | done].
Qed.

(** The events of an element followed by those of its later siblings. *)
Lemma document_events_cons node opened closed ch ts :
  document_events (Elem node opened closed ch :: ts)
  = OpenTag node opened :: document_events ch ++ CloseTag node closed :: document_events ts.
Proof.
  unfold document_events. cbn. by rewrite <- !app_assoc.
Qed.

Lemma sel_run_element xmlSource scheme targetId node opened closed ch ts s :
  sel_run xmlSource scheme targetId s (document_events (Elem node opened closed ch :: ts))
  = s1 ← sel_opentag xmlSource scheme targetId s node (Z.of_nat (position opened));
    s2 ← sel_run xmlSource scheme targetId s1 (document_events ch);
    sel_run xmlSource scheme targetId
      (sel_closetag scheme s2 (Z.of_nat (position closed))) (document_events ts).
Proof.
  rewrite document_events_cons. cbn [sel_run sel_event].
  destruct (sel_opentag _ _ _ _ _ _) as [s1|err]; cbn; [|done].
  rewrite sel_run_app.
  destruct (sel_run _ _ _ s1 _) as [s2|err]; cbn; done.
Qed.

Lemma enter_element_stack d f td sp ep cs k p pc ic ap af :
  enter_element (MkSel d f td sp ep (cs ++ [k]) p pc ic ap af)
  = MkSel (d + 1) f td sp ep (cs ++ [S k; 0%nat]) (p ++ [S k]) pc ic ap af.
Proof.
  unfold enter_element. cbn [childCounts depth found targetDepth startPos endPos
    elementPath positionalCounts idCounts idAnchorPath idAnchorFound].
  rewrite length_app. cbn [length].
  replace (length cs + 1 - 1)%nat with (length cs + 0)%nat by lia.
  rewrite alter_app_r. cbn [alter list_alter]. rewrite list_lookup_middle by lia. cbn.
  by rewrite <- app_assoc.
Qed.

(** The [closetag] handler pops the stack; it ends the span when the
    element closed is the marked one. *)
Lemma sel_closetag_stack scheme d f td sp ep cs n p i pc ic ap af pos :
  exists pc' ic',
    sel_closetag scheme (MkSel (d + 1) f td sp ep (cs ++ [n]) (p ++ [i]) pc ic ap af) pos
    = MkSel d f
        (if bool_decide (td = Some (d + 1)) then None else td) sp
        (if bool_decide (td = Some (d + 1)) then pos else ep)
        cs p pc' ic' ap af.
Proof.
  unfold sel_closetag. cbn [childCounts depth found targetDepth startPos endPos
    elementPath positionalCounts idCounts idAnchorPath idAnchorFound].
  rewrite !removelast_last, Z.add_simpl_r.
  eexists _, _.
  destruct td as [d0|]; [|by rewrite bool_decide_eq_false_2].
  destruct (Z.eqb_spec (d + 1) d0) as [<-|Hne].
  - by rewrite bool_decide_eq_true_2.
  - rewrite bool_decide_eq_false_2; [done | congruence].
Qed.

(** ** The selector on a well-formed document *)



Lemma markTarget_eq xmlSource node opened d td sp ep cc path pc ic ap af :
  markTarget xmlSource node (Z.of_nat (position opened))
    (MkSel d false td sp ep cc path pc ic ap af)
  = if tag_start xmlSource opened =? -1
    then Throw (Error "Could not find start of xpointer target.")
    else Normal (MkSel d true (if isSelfClosing node then None else Some d)
                   (tag_start xmlSource opened)
                   (if isSelfClosing node then Z.of_nat (position opened) else ep)
                   cc path pc ic ap af).
Proof. reflexivity. Qed.




(** ** Paths in a document *)







(** ** Positional pointers: the child counts recorded *)




(** ** Positional pointers: the claim *)





(** ** Anchored pointers *)





Lemma anchor_of_cons id node opened closed ch ts :
  anchor_of id (Elem node opened closed ch :: ts)
  = if matchesId (attributes node) id then Some (Elem node opened closed ch)
    else match anchor_of id ch with
         | Some a => Some a
         | None => anchor_of id ts
         end.
Proof.
  unfold anchor_of. cbn [first_some first_with_id].
  by destruct (matchesId (attributes node) id).
Qed.






(** * Further properties of the helpers *)

(** ** [iriToUri] *)

Lemma forallb_string_app p s1 s2 :
  JS.forallb_string p (s1 +:+ s2) = JS.forallb_string p s1 && JS.forallb_string p s2.
Proof.
  induction s1 as [|c s1 IH]; [done|].
  simpl. by rewrite IH, andb_assoc.
Qed.

Lemma hex_digit_ascii n : is_ascii_unit (hex_digit n) = true.
Proof. do 16 (destruct n as [|n]; [reflexivity|]). reflexivity. Qed.

Lemma percent_byte_ascii b : JS.forallb_string is_ascii_unit (percent_byte b) = true.
Proof. unfold percent_byte. cbn. by rewrite !hex_digit_ascii. Qed.

Lemma iriToUri_ascii iri : JS.forallb_string is_ascii_unit (iriToUri iri) = true.
Proof.
  induction iri as [|c iri IH]; cbn [iriToUri]; [done|].
  rewrite forallb_string_app, IH, andb_true_r.
  fold (is_ascii_unit c). destruct (is_ascii_unit c) eqn:Hc.
  - cbn. by rewrite Hc.
  - unfold encodeURIComponent_high. by rewrite forallb_string_app, !percent_byte_ascii.
Qed.

Lemma iriToUri_on_ascii iri :
  JS.forallb_string is_ascii_unit iri = true -> iriToUri iri = iri.
Proof.
  induction iri as [|c iri IH]; cbn; [done|].
  intros [Hc Hrest]%andb_prop. fold (is_ascii_unit c). rewrite Hc. cbn.
  by rewrite IH.
Qed.

(** X1. [iriToUri] produces ASCII only: every code unit above 0x7f is replaced
    by percent escapes. So it leaves exactly the pure-ASCII strings
    unchanged, and encoding twice is encoding once. *)
Theorem iriToUri_escapes_exactly_non_ascii (iri : string) :
  JS.forallb_string is_ascii_unit (iriToUri iri) = true
  /\ (iriToUri iri = iri <-> JS.forallb_string is_ascii_unit iri = true)
  /\ iriToUri (iriToUri iri) = iriToUri iri.
Proof.
  split; [apply iriToUri_ascii|]. split.
  - split; [|apply iriToUri_on_ascii].
    intros Hfix. rewrite <- Hfix. apply iriToUri_ascii.
  - apply iriToUri_on_ascii, iriToUri_ascii.
Qed.

(** ** [strip_declaration] *)

Lemma string_app_cons c (a b : string) : String c a +:+ b = String c (a +:+ b).
Proof. reflexivity. Qed.

Lemma trim_start_suffix s : exists pre, s = pre +:+ JS.trim_start s.
Proof.
  induction s as [|c s [pre IH]]; simpl; [by exists ""|].
  destruct (JS.is_space c); [|by exists ""].
  exists (String c pre). rewrite string_app_cons. by f_equal.
Qed.

Lemma strip_prefix_Some pre s rest :
  JS.strip_prefix pre s = Some rest -> s = pre +:+ rest.
Proof.
  revert s. induction pre as [|a pre IH]; intros s; cbn.
  - by intros [= ->].
  - destruct s as [|b s]; [done|]. case_bool_decide as Hab; [|done].
    intros Hrest%IH. by subst.
Qed.

Lemma skip_to_pi_end_suffix s rest :
  skip_to_pi_end s = Some rest -> exists pre, s = pre +:+ rest.
Proof.
  revert rest. induction s as [|c s IH]; intros rest; cbn; [done|].
  assert (forall r, (if JS.is_line_terminator c then None else skip_to_pi_end s) = Some r ->
                    exists pre, String c s = pre +:+ r) as Hstep.
  { intros r. destruct (JS.is_line_terminator c); [done|].
    intros [pre ->]%IH. by exists (String c pre). }
  destruct (decide (c = "?"%char)) as [->|Hc].
  - destruct s as [|c' s']; [apply Hstep|].
    destruct (decide (c' = ">"%char)) as [->|Hc'].
    + intros [= ->]. by exists "?>".
    + intros H. apply Hstep. revert H.
      clear -Hc'. destruct c' as [[] [] [] [] [] [] [] []]; try done.
  - intros H. apply Hstep. revert H.
    clear -Hc. destruct c as [[] [] [] [] [] [] [] []]; try done.
Qed.

Lemma string_app_assoc (a b c : string) : (a +:+ b) +:+ c = a +:+ b +:+ c.
Proof. induction a as [|x a IH]; [done|]. by rewrite !string_app_cons, IH. Qed.

(** X2. Stripping the declaration only ever removes a prefix of the acquired
    text: what is passed on to selection and recursion is a suffix of it. *)
Theorem strip_declaration_returns_suffix (doc : string) :
  exists removed, doc = removed +:+ strip_declaration doc.
Proof.
  unfold strip_declaration.
  destruct (JS.strip_prefix "<?xml" (JS.trim_start doc) ≫= skip_to_pi_end)
    as [after|] eqn:Hmatch; [|by exists ""].
  destruct (JS.strip_prefix "<?xml" (JS.trim_start doc)) as [rest|] eqn:Hpre; [|done].
  cbn in Hmatch.
  destruct (trim_start_suffix doc) as [ws Hws].
  apply strip_prefix_Some in Hpre.
  apply skip_to_pi_end_suffix in Hmatch as [body ->].
  destruct (trim_start_suffix after) as [ws' Hws'].
  exists (ws +:+ "<?xml" +:+ body +:+ ws').
  rewrite Hws at 1. rewrite Hpre. rewrite Hws' at 1.
  by rewrite !string_app_assoc.
Qed.

(** ** [parseElementScheme] *)


Lemma Number_fold_grows (cs : list ascii) (acc : nat) :
  (acc <= fold_left (fun acc c => (10 * acc + default 0 (Ascii.is_nat c))%nat) cs acc)%nat.
Proof.
  revert acc. induction cs as [|c cs IH]; intros acc; cbn [fold_left]; [done|].
  etrans; [|apply IH]. lia.
Qed.

Lemma Number_positive token : isIntegerToken token = true -> (1 <= Number token)%nat.
Proof.
  destruct token as [|c rest]; [done|]. cbn [isIntegerToken].
  intros [[Hdigit Hnonzero]%andb_prop _]%andb_prop.
  unfold Number. cbn [list_ascii_of_string fold_left].
  etrans; [|apply Number_fold_grows].
  unfold is_digit in Hdigit. destruct (Ascii.is_nat c) as [[|n]|] eqn:Hc; [|cbn; lia|done].
  exfalso. apply negb_true_iff, bool_decide_eq_false in Hnonzero. apply Hnonzero.
  clear -Hc. destruct c as [[] [] [] [] [] [] [] []]; try done.
Qed.

Lemma parse_steps_positive tokens steps :
  parse_steps tokens = Normal steps ->
  Forall (fun n => (1 <= n)%nat) steps /\ length steps = length tokens.
Proof.
  revert steps. induction tokens as [|token tokens IH]; intros steps; cbn [parse_steps].
  - intros [= <-]. by split.
  - destruct (isIntegerToken token) eqn:Htoken; [|done].
    destruct (parse_steps tokens) as [steps'|]; [|done]. cbn.
    intros [= <-]. destruct (IH steps' eq_refl) as [Hall Hlen]. split.
    + constructor; [by apply Number_positive | done].
    + cbn. by rewrite Hlen.
Qed.

(** X4. A pointer that parses as an [element()] scheme has 1-based steps: a
    positional pointer has at least one step and none of them is 0; an
    anchored pointer has a non-empty anchor that is not itself a step, and
    none of its steps is 0. *)
Theorem parseElementScheme_steps_are_one_based (xpointer : string) (scheme : ElementScheme) :
  parseElementScheme xpointer = Normal (Some scheme) ->
  match scheme with
  | Positional steps => steps <> [] /\ Forall (fun n => (1 <= n)%nat) steps
  | ById id steps =>
      id <> "" /\ isIntegerToken id = false /\ Forall (fun n => (1 <= n)%nat) steps
  end.
Proof.
  unfold parseElementScheme.
  destruct (match_wrapped "element(" (xpointer_inner xpointer)) as [body|]; [|done].
  destruct (JS.is_empty (JS.trim body)); [done|].
  destruct (List.filter _ _) as [|first others] eqn:Htokens; [done|].
  assert (JS.is_empty first = false) as Hfirst.
  { assert (first ∈ List.filter (fun t => negb (JS.is_empty t))
                       (JS.split "/" (JS.trim body))) as Hin
      by (rewrite Htokens; left).
    apply list_elem_of_In, filter_In in Hin as [_ Hne]. by apply negb_true_iff. }
  destruct (isIntegerToken first) eqn:Hint.
  - destruct (parse_steps (first :: others)) as [steps|] eqn:Hsteps; [|done].
    cbn. intros [= <-].
    apply parse_steps_positive in Hsteps as [Hall Hlen]. split; [|done].
    intros ->. done.
  - destruct (parse_steps others) as [steps|] eqn:Hsteps; [|done].
    cbn. intros [= <-].
    apply parse_steps_positive in Hsteps as [Hall _].
    split; [|done]. intros ->. done.
Qed.

Lemma parseElementScheme_steps_witness :
  [1; 2]%nat <> [] /\ Forall (fun n => (1 <= n)%nat) [1; 2]%nat.
Proof.
  exact (parseElementScheme_steps_are_one_based " xpointer(element(1/2)) "
           (Positional [1; 2]%nat) eq_refl).
Defined.

(** ** [matchesPath] *)

(** X6. [matchesPath] holds exactly when the two paths are the same sequence
    of indices. *)
Theorem matchesPath_decides_equality (path target : list nat) :
  matchesPath path target = true <-> path = target.
Proof. rewrite matchesPath_spec. apply bool_decide_eq_true. Qed.

(** ** The forms of an XPointer expression *)

Lemma strip_prefix_app pre s : JS.strip_prefix pre (pre +:+ s) = Some s.
Proof.
  induction pre as [|a pre IH]; [done|].
  rewrite string_app_cons. cbn [JS.strip_prefix].
  by rewrite bool_decide_eq_true_2.
Qed.

Lemma strip_last_if_snoc p s c :
  p c = true -> strip_last_if p (s +:+ String c "") = Some s.
Proof.
  intros Hc. induction s as [|a s IH].
  { change ("" +:+ String c "") with (String c ""). cbn. by rewrite Hc. }
  rewrite string_app_cons. destruct s as [|b s].
  - change ("" +:+ String c "") with (String c "") in *.
    cbn [strip_last_if] in *. by rewrite IH.
  - rewrite string_app_cons in *. cbn [strip_last_if] in *. by rewrite IH.
Qed.

Lemma strip_last_snoc s c : JS.strip_last c (s +:+ String c "") = Some s.
Proof.
  induction s as [|a s IH].
  { change ("" +:+ String c "") with (String c ""). cbn. by rewrite bool_decide_eq_true_2. }
  rewrite string_app_cons. destruct s as [|b s].
  - change ("" +:+ String c "") with (String c "") in *.
    cbn [JS.strip_last] in *. by rewrite IH.
  - rewrite string_app_cons in *. cbn [JS.strip_last] in *. by rewrite IH.
Qed.

Lemma trim_end_snoc s c :
  JS.is_space c = false -> JS.trim_end (s +:+ String c "") = s +:+ String c "".
Proof.
  intros Hc. induction s as [|a s IH].
  { change ("" +:+ String c "") with (String c ""). cbn. by rewrite Hc. }
  rewrite string_app_cons. cbn [JS.trim_end]. rewrite IH.
  destruct s; [done|]. by rewrite string_app_cons.
Qed.

Lemma string_snoc_close s q : s +:+ String q ")" = (s +:+ String q "") +:+ ")".
Proof. by rewrite string_app_assoc. Qed.

(** An expression enters [parseElementScheme] and [normalizeXPointer] only
    through what is left once it is trimmed and unwrapped. *)
Lemma select_by_inner saxes xmlSource xpointer1 xpointer2 :
  xpointer_inner xpointer1 = xpointer_inner xpointer2 ->
  selectXPointerFragment saxes xmlSource xpointer1
  = selectXPointerFragment saxes xmlSource xpointer2.
Proof.
  intros Hinner. unfold selectXPointerFragment, parseElementScheme, normalizeXPointer.
  by rewrite Hinner.
Qed.

Lemma xpointer_inner_envelope xpointer :
  xpointer <> "" ->
  JS.forallb_string (fun c => negb (JS.is_line_terminator c)) xpointer = true ->
  xpointer_inner ("xpointer(" +:+ xpointer +:+ ")") = JS.trim xpointer.
Proof.
  intros Hne Hline. unfold xpointer_inner.
  assert (JS.trim ("xpointer(" +:+ xpointer +:+ ")") = "xpointer(" +:+ xpointer +:+ ")")
    as ->.
  { unfold JS.trim. change (JS.trim_start ("xpointer(" +:+ xpointer +:+ ")"))
      with ("xpointer(" +:+ xpointer +:+ ")").
    rewrite <- string_app_assoc. by apply trim_end_snoc. }
  unfold match_wrapped. rewrite strip_prefix_app. cbn [mbind option_bind].
  rewrite strip_last_snoc. cbn [mbind option_bind]. rewrite Hline.
  by destruct xpointer.
Qed.

(** X7. The [xpointer(..)] envelope is transparent: an expression without line
    terminators that is not itself enveloped selects the same with one
    envelope around it. *)
Theorem xpointer_envelope_is_transparent saxes xmlSource xpointer :
  xpointer <> "" ->
  JS.forallb_string (fun c => negb (JS.is_line_terminator c)) xpointer = true ->
  match_wrapped "xpointer(" (JS.trim xpointer) = None ->
  selectXPointerFragment saxes xmlSource ("xpointer(" +:+ xpointer +:+ ")")
  = selectXPointerFragment saxes xmlSource xpointer.
Proof.
  intros Hne Hline Hbare. apply select_by_inner.
  rewrite xpointer_inner_envelope by done.
  unfold xpointer_inner. by rewrite Hbare.
Qed.

Lemma xpointer_envelope_witness :
  selectXPointerFragment Sample.sections_parser Sample.sections_xml
    "xpointer(element(intro/1))"
  = selectXPointerFragment Sample.sections_parser Sample.sections_xml "element(intro/1)".
Proof.
  apply (xpointer_envelope_is_transparent Sample.sections_parser Sample.sections_xml
           "element(intro/1)"); [discriminate | reflexivity | reflexivity].
Defined.

(** X8. An expression that is empty once trimmed and unwrapped is refused
    before the document is looked at. *)
Theorem empty_xpointer_is_refused saxes xmlSource xpointer :
  xpointer_inner xpointer = "" ->
  selectXPointerFragment saxes xmlSource xpointer = Throw (Error "Empty xpointer target.").
Proof.
  intros Hinner. unfold selectXPointerFragment, parseElementScheme, normalizeXPointer.
  by rewrite Hinner.
Qed.

Lemma empty_xpointer_witness :
  selectXPointerFragment Sample.sections_parser Sample.sections_xml " xpointer(  ) "
  = Throw (Error "Empty xpointer target.").
Proof. apply empty_xpointer_is_refused. reflexivity. Defined.

(** X9. [id(Q X Q')] stands for the identifier [X], whichever of the two quote
    characters opens and closes it; such an expression is not an [element()]
    pointer. *)
Theorem id_call_names_its_argument (q1 q2 : ascii) (id : string) :
  is_quote q1 = true ->
  is_quote q2 = true ->
  id <> "" ->
  JS.forallb_string (fun c => negb (is_quote c)) id = true ->
  normalizeXPointer ("id(" +:+ String q1 (id +:+ String q2 ")")) = id
  /\ parseElementScheme ("id(" +:+ String q1 (id +:+ String q2 ")")) = Normal None.
Proof.
  intros Hq1 Hq2 Hne Hplain.
  assert (xpointer_inner ("id(" +:+ String q1 (id +:+ String q2 ")"))
          = "id(" +:+ String q1 (id +:+ String q2 ")")) as Hinner.
  { unfold xpointer_inner.
    assert (JS.trim ("id(" +:+ String q1 (id +:+ String q2 ")"))
            = "id(" +:+ String q1 (id +:+ String q2 ")")) as ->; [|done].
    unfold JS.trim. change (JS.trim_start ("id(" +:+ ?s)) with ("id(" +:+ s).
    replace ("id(" +:+ String q1 (id +:+ String q2 ")"))
      with (("id(" +:+ String q1 (id +:+ String q2 "")) +:+ ")").
    - by apply trim_end_snoc.
    - by rewrite (string_snoc_close id q2). }
  split.
  - unfold normalizeXPointer. rewrite Hinner.
    unfold match_id_call. rewrite strip_prefix_app. cbn [mbind option_bind].
    replace (String q1 (id +:+ String q2 ")"))
      with (String q1 (id +:+ String q2 "") +:+ ")")
      by (by rewrite (string_snoc_close id q2)).
    rewrite strip_last_snoc. cbn [mbind option_bind]. rewrite Hq1.
    rewrite strip_last_if_snoc by done. cbn [mbind option_bind]. rewrite Hplain.
    by destruct id.
  - unfold parseElementScheme. by rewrite Hinner.
Qed.

Lemma id_call_witness :
  normalizeXPointer "id('intro')" = "intro"
  /\ parseElementScheme "id('intro')" = Normal None.
Proof.
  exact (id_call_names_its_argument "'"%char "'"%char "intro"
           eq_refl eq_refl ltac:(discriminate) eq_refl).
Defined.

(** ** Selection by a bare identifier *)

(** Once an element is marked, the rest of the scan keeps the selection,
    whatever the pointer is. *)
Lemma marked_forest xmlSource scheme targetId : forall doc d td sp ep cs k p pc ic ap af,
  (forall d0, td = Some d0 -> d0 <= d) ->
  exists pc' ic',
    sel_run xmlSource scheme targetId
      (MkSel d true td sp ep (cs ++ [k]) p pc ic ap af) (document_events doc)
    = Normal (MkSel d true td sp ep (cs ++ [(k + length doc)%nat]) p pc' ic' ap af).
Proof.
  induction doc as [|node opened closed ch ts IHch IHts] using forest_ind;
    intros d td sp ep cs k p pc ic ap af Htd.
  - cbn. rewrite Nat.add_0_r. by eexists _, _.
  - rewrite sel_run_element. unfold sel_opentag. rewrite enter_element_stack.
    cbn [found mbind completion_bind].
    replace (cs ++ [S k; 0%nat]) with ((cs ++ [S k]) ++ [0%nat]) by by rewrite <- app_assoc.
    destruct (IHch (d + 1) td sp ep (cs ++ [S k]) 0%nat (p ++ [S k]) pc ic ap af)
      as (pc1 & ic1 & ->); [intros d0 Hd0; specialize (Htd d0 Hd0); lia|].
    cbn [mbind completion_bind].
    destruct (sel_closetag_stack scheme d true td sp ep (cs ++ [S k])
                (0 + length ch) p (S k) pc1 ic1 ap af (Z.of_nat (position closed)))
      as (pc2 & ic2 & ->).
    rewrite bool_decide_eq_false_2
      by (intros ->; specialize (Htd (d + 1) eq_refl); lia).
    destruct (IHts d td sp ep cs (S k) p pc2 ic2 ap af Htd) as (pc3 & ic3 & ->).
    cbn [length]. replace (k + S (length ts))%nat with (S k + length ts)%nat by lia.
    by eexists _, _.
Qed.

(** With a bare identifier the scan marks the first element in document
    order that carries it, and ends its span. *)
Lemma carrier_forest xmlSource id :
  id <> "" ->
  forall doc d cs k p pc ic ap af,
    match anchor_of id doc with
    | None =>
        exists pc' ic',
          sel_run xmlSource None (Some id)
            (MkSel d false None (-1) (-1) (cs ++ [k]) p pc ic ap af) (document_events doc)
          = Normal (MkSel d false None (-1) (-1) (cs ++ [(k + length doc)%nat]) p
                      pc' ic' ap af)
    | Some e =>
        if tag_start xmlSource (elem_opened e) =? -1 then
          sel_run xmlSource None (Some id)
            (MkSel d false None (-1) (-1) (cs ++ [k]) p pc ic ap af) (document_events doc)
          = Throw (Error "Could not find start of xpointer target.")
        else
          exists pc' ic',
            sel_run xmlSource None (Some id)
              (MkSel d false None (-1) (-1) (cs ++ [k]) p pc ic ap af) (document_events doc)
            = Normal (MkSel d true None (tag_start xmlSource (elem_opened e)) (span_end e)
                        (cs ++ [(k + length doc)%nat]) p pc' ic' ap af)
    end.
Proof.
  intros Hid.
  assert (JS.is_empty id = false) as Hempty by by destruct id.
  induction doc as [|node opened closed ch ts IHch IHts] using forest_ind;
    intros d cs k p pc ic ap af.
  - cbn. rewrite Nat.add_0_r. by eexists _, _.
  - rewrite anchor_of_cons, sel_run_element.
    unfold sel_opentag. rewrite enter_element_stack. cbn [found]. rewrite Hempty.
    cbn [negb andb length].
    replace (k + S (length ts))%nat with (S k + length ts)%nat by lia.
    replace (cs ++ [S k; 0%nat]) with ((cs ++ [S k]) ++ [0%nat]) by by rewrite <- app_assoc.
    destruct (matchesId (attributes node) id).
    + rewrite markTarget_eq. cbn [elem_opened].
      destruct (tag_start xmlSource opened =? -1); [done|].
      cbn [mbind completion_bind].
      destruct (marked_forest xmlSource None (Some id) ch (d + 1)
                  (if isSelfClosing node then None else Some (d + 1))
                  (tag_start xmlSource opened)
                  (if isSelfClosing node then Z.of_nat (position opened) else -1)
                  (cs ++ [S k]) 0%nat (p ++ [S k]) pc ic ap af)
        as (pc1 & ic1 & ->); [by destruct (isSelfClosing node); intros d0 [= <-]|].
      cbn [mbind completion_bind].
      destruct (sel_closetag_stack None d true
                  (if isSelfClosing node then None else Some (d + 1))
                  (tag_start xmlSource opened)
                  (if isSelfClosing node then Z.of_nat (position opened) else -1)
                  (cs ++ [S k]) (0 + length ch) p (S k) pc1 ic1 ap af
                  (Z.of_nat (position closed)))
        as (pc2 & ic2 & ->).
      unfold span_end. cbn [elem_node elem_opened elem_closed].
      destruct (isSelfClosing node).
      * rewrite bool_decide_eq_false_2 by done.
        apply marked_forest. done.
      * rewrite bool_decide_eq_true_2 by done.
        apply marked_forest. done.
    + cbn [mbind completion_bind].
      specialize (IHch (d + 1) (cs ++ [S k]) 0%nat (p ++ [S k]) pc ic ap af).
      destruct (anchor_of id ch) as [e|].
      * destruct (tag_start xmlSource (elem_opened e) =? -1); [rewrite IHch; reflexivity|].
        destruct IHch as (pc1 & ic1 & ->). cbn [mbind completion_bind].
        destruct (sel_closetag_stack None d true None
                    (tag_start xmlSource (elem_opened e)) (span_end e)
                    (cs ++ [S k]) (0 + length ch) p (S k) pc1 ic1 ap af
                    (Z.of_nat (position closed)))
          as (pc2 & ic2 & ->).
        rewrite bool_decide_eq_false_2 by done.
        apply marked_forest. done.
      * destruct IHch as (pc1 & ic1 & ->). cbn [mbind completion_bind].
        destruct (sel_closetag_stack None d false None (-1) (-1)
                    (cs ++ [S k]) (0 + length ch) p (S k) pc1 ic1 ap af
                    (Z.of_nat (position closed)))
          as (pc2 & ic2 & ->).
        rewrite bool_decide_eq_false_2 by done.
        apply IHts.
Qed.

(** X10. A pointer that is not an [element()] pointer names an identifier. On a
    well-formed document it selects the first element in document order that
    carries the identifier (by the id-attribute rule), from the start of its
    start tag to the end of its end tag; when no element carries it the
    failure is target not found, for the identifier. *)
Theorem bare_identifier_selects_first_carrier
    (saxes : string -> Scan) (xmlSource : string) (doc : list Element) (final : ParserPos)
    (xpointer : string) :
  saxes xmlSource = document_scan doc final ->
  parseElementScheme xpointer = Normal None ->
  normalizeXPointer xpointer <> "" ->
  selectXPointerFragment saxes xmlSource xpointer
  = match anchor_of (normalizeXPointer xpointer) doc with
    | Some e => span_of xmlSource e
    | None =>
        Throw (Error ("XInclude xpointer target not found: " +:+ normalizeXPointer xpointer))
    end.
Proof.
  intros Hscan Hparse Hid. unfold selectXPointerFragment.
  rewrite Hparse, Hscan. cbn [mbind completion_bind].
  set (id := normalizeXPointer xpointer) in *.
  destruct id as [|c id'] eqn:Hshape; [done|]. rewrite <- Hshape in *. clear Hshape c id'.
  unfold select_scheme, sel_init. cbn [events document_scan failure].
  pose proof (carrier_forest xmlSource id Hid doc 0 [] 0%nat [] ∅ ∅ None false) as Hrun.
  cbn [app] in Hrun.
  destruct (anchor_of id doc) as [e|].
  - unfold span_of. fold (tag_start xmlSource (elem_opened e)). fold (span_end e).
    destruct (Z.eqb_spec (tag_start xmlSource (elem_opened e)) (-1)) as [Hnone|Hsome].
    + by rewrite Hrun.
    + destruct Hrun as (pc' & ic' & ->). cbn.
      destruct (Z.eqb_spec (tag_start xmlSource (elem_opened e)) (-1)); [done|].
      assert ((span_end e =? -1) = false) as ->; [|done].
      apply Z.eqb_neq. unfold span_end. destruct (isSelfClosing _); lia.
  - destruct Hrun as (pc' & ic' & ->). cbn. done.
Qed.

Lemma bare_identifier_witness :
  selectXPointerFragment Sample.sections_parser Sample.sections_xml "id('intro')"
  = span_of Sample.sections_xml Sample.intro_element.
Proof.
  exact (bare_identifier_selects_first_carrier
           Sample.sections_parser Sample.sections_xml [Sample.root_element] Sample.done
           "id('intro')" eq_refl eq_refl ltac:(discriminate)).
Defined.

(** ** One directive, from request to marker *)

Lemma include_text_selected h recur depth xp nestedBase doc :
  include_text h recur depth xp nestedBase doc
  = match selected_text h xp doc with
    | Normal text => recur (depth + 1)%nat text (Some nestedBase)
    | Throw err => Some ([], Throw err)
    end.
Proof. reflexivity. Qed.

(** The closure variables after the scan of a text with one directive
    that has an [href]. *)
Lemma scan_state_sole h xmlSource depth baseUri node pp ending hrefAttr :
  xincludeSupport h = true ->
  (depth < depthLimit h)%nat ->
  sole_directive h xmlSource node pp ending ->
  get_attribute node "href" = Some hrefAttr ->
  let hrefURL := resolveXIncludeHref h (attr_value hrefAttr) baseUri in
  scan_state h xmlSource depth baseUri
  = MkRes [Str (JS.substring xmlSource 0 (tag_start xmlSource pp));
           Promise (included_content h (nested_calls h depth) depth hrefURL
                      (Uri_parse h hrefURL) (get_attribute node "xpointer")
                      (line pp) (column pp))]
          (Z.of_nat (position pp)) true [include_request h hrefURL].
Proof.
  intros Hsup Hd ((before & after & Hscan & Hbefore & Hafter) & Hxi & Hsc & Hparse & Hstart)
    Hhref hrefURL.
  unfold scan_state, res_scan. rewrite Hscan. cbn [events].
  rewrite !res_scan_app, (res_scan_no_xinclude _ _ _ _ _ _ _ Hbefore).
  cbn [fold_left res_event].
  rewrite res_opentag_active by done. cbv zeta.
  rewrite Hsup, Hparse, Hhref. unfold flushed. rewrite Hsc. cbn [negb].
  rewrite res_closetag_selfclosing by done.
  by rewrite (res_scan_no_xinclude _ _ _ _ _ _ _ Hafter).
Qed.

(** X14. A directive whose target cannot be acquired, or whose [xpointer]
    selection fails, costs one request and leaves one error marker in its
    place: the text before and after it is kept, nothing is resolved below
    it, and the call still fulfils. The marker cites the failure, the
    parser position read once the scan is over, and the directive's column. *)
Theorem include_failure_is_contained
    (h : Host) (xmlSource : string) (depth : nat) (baseUri : option Uri)
    (node : SaxesTag) (pp ending : ParserPos) (hrefAttr : SaxesAttributeNS) (err : Exn) :
  xincludeSupport h = true ->
  (depth < depthLimit h)%nat ->
  sole_directive h xmlSource node pp ending ->
  get_attribute node "href" = Some hrefAttr ->
  let hrefURL := resolveXIncludeHref h (attr_value hrefAttr) baseUri in
  (acquire h hrefURL (Uri_parse h hrefURL) = Throw err
   \/ exists doc nestedBase,
        acquire h hrefURL (Uri_parse h hrefURL) = Normal (doc, nestedBase)
        /\ selected_text h (get_attribute node "xpointer") doc = Throw err) ->
  resolveXIncludes h xmlSource depth baseUri
  = Some ([include_request h hrefURL],
          Normal (JS.substring xmlSource 0 (tag_start xmlSource pp)
                    +:+ errorPI (exn_to_string err) (position ending) (column pp)
                    +:+ JS.substring_from xmlSource (Z.of_nat (position pp)))).
Proof.
  intros Hsup Hd Hsole Hhref hrefURL Hfail.
  rewrite resolveXIncludes_unfold, resolve_body_joined. cbv zeta.
  fold (scan_state h xmlSource depth baseUri).
  rewrite (scan_state_sole h xmlSource depth baseUri node pp ending hrefAttr) by done.
  fold hrefURL.
  destruct Hsole as ((before & after & Hscan & _) & _).
  unfold degrades. rewrite Hscan. cbn [failure outputParts lastPos effects final app].
  cbn [mapM settle_part]. unfold included_content.
  destruct Hfail as [Hacq|(doc & nestedBase & Hacq & Hsel)]; rewrite Hacq.
  - cbn. done.
  - rewrite include_text_selected, Hsel. cbn. done.
Qed.

Lemma include_failure_witness :
  resolveXIncludes (Sample.host Sample.texts [] 0 true) Sample.main_xml 0
    (Some (Sample.file "main.xml"))
  = Some ([OpenTextDocument (Sample.file "a.xml")],
          Normal (Sample.main_open
                    +:+ errorPI "CodeExpectedError: cannot open file:///w/a.xml" 0 72
                    +:+ "<p/></r>")).
Proof.
  apply (include_failure_is_contained (Sample.host Sample.texts [] 0 true)
           Sample.main_xml 0 (Some (Sample.file "main.xml"))
           Sample.main_node Sample.main_at Sample.done (Sample.attr "href" "a.xml")
           (MkExn "CodeExpectedError" "cannot open file:///w/a.xml")).
  - reflexivity.
  - vm_compute. lia.
  - split; [|repeat split; vm_compute; discriminate].
    exists Sample.main_before, Sample.main_after. repeat split.
  - reflexivity.
  - left. reflexivity.
Defined.

(** X13. A directive whose target is acquired and selected costs one request
    and leaves, in its place, the nested resolution of the selected text one
    level down, wrapped in the enter and leave markers of its depth; the
    text before and after it is kept, and the effects of the nested call
    follow the request. *)
Theorem include_wraps_nested_resolution
    (h : Host) (xmlSource : string) (depth : nat) (baseUri : option Uri)
    (node : SaxesTag) (pp ending : ParserPos) (hrefAttr : SaxesAttributeNS)
    (doc text : string) (nestedBase : Uri) :
  xincludeSupport h = true ->
  (depth < depthLimit h)%nat ->
  sole_directive h xmlSource node pp ending ->
  get_attribute node "href" = Some hrefAttr ->
  let hrefURL := resolveXIncludeHref h (attr_value hrefAttr) baseUri in
  acquire h hrefURL (Uri_parse h hrefURL) = Normal (doc, nestedBase) ->
  selected_text h (get_attribute node "xpointer") doc = Normal text ->
  exists effs nested,
    resolveXIncludes h text (S depth) (Some nestedBase) = Some (effs, Normal nested)
    /\ resolveXIncludes h xmlSource depth baseUri
       = Some (include_request h hrefURL :: effs,
               Normal (JS.substring xmlSource 0 (tag_start xmlSource pp)
                         +:+ makePI depth hrefURL (line pp) (column pp) nested
                         +:+ JS.substring_from xmlSource (Z.of_nat (position pp)))).
Proof.
  intros Hsup Hd Hsole Hhref hrefURL Hacq Hsel.
  destruct (resolveXIncludes_total h text (S depth) (Some nestedBase))
    as (effs & nested & Hnested).
  exists effs, nested. split; [done|].
  rewrite resolveXIncludes_unfold, resolve_body_joined. cbv zeta.
  fold (scan_state h xmlSource depth baseUri).
  rewrite (scan_state_sole h xmlSource depth baseUri node pp ending hrefAttr) by done.
  fold hrefURL.
  destruct Hsole as ((before & after & Hscan & _) & _).
  unfold degrades. rewrite Hscan. cbn [failure outputParts lastPos effects final app].
  cbn [mapM settle_part]. unfold included_content. rewrite Hacq.
  rewrite include_text_selected, Hsel.
  replace (depth + 1)%nat with (S depth) by lia.
  rewrite nested_calls_below by done. rewrite Hnested.
  cbn. rewrite app_nil_r. done.
Qed.

Lemma include_wraps_witness :
  exists effs nested,
    resolveXIncludes (Sample.host Sample.section_texts Sample.section_files 0 true)
      Sample.intro_xml 1 (Some (Sample.file "sections.xml"))
    = Some (effs, Normal nested)
    /\ resolveXIncludes (Sample.host Sample.section_texts Sample.section_files 0 true)
         Sample.e_xml 0 (Some (Sample.file "e.xml"))
       = Some (include_request (Sample.host Sample.section_texts Sample.section_files 0 true)
                 "file:///w/sections.xml" :: effs,
               Normal (JS.substring Sample.e_xml 0 (tag_start Sample.e_xml Sample.e_at)
                         +:+ makePI 0 "file:///w/sections.xml"
                               (line Sample.e_at) (column Sample.e_at) nested
                         +:+ JS.substring_from Sample.e_xml
                               (Z.of_nat (position Sample.e_at)))).
Proof.
  apply (include_wraps_nested_resolution
           (Sample.host Sample.section_texts Sample.section_files 0 true)
           Sample.e_xml 0 (Some (Sample.file "e.xml"))
           Sample.e_node Sample.e_at Sample.done (Sample.attr "href" "sections.xml")
           Sample.sections_xml Sample.intro_xml
           (MkUri "file" "file:///w/sections.xml")).
  - reflexivity.
  - vm_compute. lia.
  - split; [|repeat split; vm_compute; discriminate].
    exists [OpenTag (Sample.plain "e" [] false) (Sample.after Sample.e_open)],
           [CloseTag (Sample.plain "e" [] false) (Sample.after Sample.e_xml)].
    repeat split.
  - reflexivity.
  - reflexivity.
  - vm_compute. reflexivity.
Defined.

(** ** What a call does whatever the text *)

Lemma filter_request_snoc (effs : list Effect) (e : Effect) :
  List.filter is_request (effs ++ [e])
  = List.filter is_request effs ++ (if is_request e then [e] else []).
Proof. by rewrite List.filter_app. Qed.

Lemma res_event_requests h recur depth xmlSource baseUri s ev :
  List.filter is_request (effects (res_event h recur depth xmlSource baseUri s ev))
  = List.filter is_request (effects s)
      ++ option_list (request_of h depth xmlSource baseUri ev).
Proof.
  destruct ev as [node pp|node pp]; cbn [res_event request_of].
  - destruct (is_xinclude h node) eqn:Hxi; cbn [andb];
      [|unfold res_opentag; rewrite Hxi; cbn; by rewrite app_nil_r].
    destruct (Nat.ltb_spec depth (depthLimit h)) as [Hd|Hd]; cbn [andb].
    + destruct (Z.eqb_spec (tag_start xmlSource pp) (-1)) as [Hstart|Hstart]; cbn [negb andb].
      * unfold res_opentag. rewrite Hxi. apply Nat.ltb_lt in Hd. rewrite Hd.
        fold (tag_start xmlSource pp). rewrite Hstart. cbn [Z.eqb Pos.eqb].
        cbn [effects perform set_foundXi]. rewrite filter_request_snoc. done.
      * rewrite res_opentag_active by done. cbv zeta. unfold flushed.
        destruct (xincludeSupport h); cbn [negb andb];
          [|cbn; by rewrite app_nil_r].
        destruct (parse_mode_xml node); cbn [negb andb];
          [|cbn; by rewrite app_nil_r].
        destruct (get_attribute node "href") as [hrefAttr|];
          cbn [fmap option_fmap option_map option_list];
          [|cbn; by rewrite app_nil_r].
        cbn [effects push_part perform]. rewrite filter_request_snoc.
        unfold include_request. by destruct (is_remote _).
    + unfold res_opentag. rewrite Hxi.
      apply Nat.ltb_ge in Hd. rewrite Hd.
      cbn [effects perform set_foundXi]. rewrite filter_request_snoc. done.
  - unfold res_closetag. cbn [option_list]. rewrite app_nil_r.
    by repeat case_match.
Qed.

Lemma res_scan_requests h recur depth xmlSource baseUri evs : forall s,
  List.filter is_request
    (effects (fold_left (res_event h recur depth xmlSource baseUri) evs s))
  = List.filter is_request (effects s)
      ++ omap (request_of h depth xmlSource baseUri) evs.
Proof.
  induction evs as [|ev evs IH]; intros s; cbn [fold_left omap list_omap].
  - by rewrite app_nil_r.
  - rewrite IH, res_event_requests, <- app_assoc. f_equal.
    by destruct (request_of _ _ _ _ ev).
Qed.

(** The effects of a call begin with those of its scan, and a call
    fulfils: it never rejects, whatever the parser, the requests and the
    selections do. *)
Lemma resolve_effects_begin_with_scan h xmlSource depth baseUri :
  exists nested out,
    resolveXIncludes h xmlSource depth baseUri
    = Some (effects (scan_state h xmlSource depth baseUri) ++ nested,
            Normal (if degrades h depth xmlSource (scan_state h xmlSource depth baseUri)
                    then xmlSource else out)).
Proof.
  destruct (resolveXIncludes_total h xmlSource depth baseUri) as (effs & out & Htotal).
  rewrite Htotal. rewrite resolveXIncludes_unfold, resolve_body_joined in Htotal.
  cbv zeta in Htotal. fold (scan_state h xmlSource depth baseUri) in Htotal.
  destruct (degrades h depth xmlSource (scan_state h xmlSource depth baseUri)).
  - destruct (mapM _ _) as [settled|]; [|done].
    injection Htotal as <- <-. by eexists _, xmlSource.
  - destruct (mapM _ _) as [settled|]; [|done].
    injection Htotal as <- <-. by eexists _, _.
Qed.

(** X16. A call makes its requests while it scans: one for every inclusion
    element that is met below the depth limit with resolution enabled, whose
    start tag is located, whose parse mode is the default and that has an
    [href]; in document order; and before any effect of a nested call. *)
Theorem requests_follow_document_order
    (h : Host) (xmlSource : string) (depth : nat) (baseUri : option Uri) :
  exists own nested out,
    resolveXIncludes h xmlSource depth baseUri = Some (own ++ nested, Normal out)
    /\ own = effects (scan_state h xmlSource depth baseUri)
    /\ List.filter is_request own
       = omap (request_of h depth xmlSource baseUri) (events (saxes h xmlSource)).
Proof.
  destruct (resolve_effects_begin_with_scan h xmlSource depth baseUri)
    as (nested & out & Hresolve).
  eexists _, nested, _. split; [exact Hresolve|]. split; [done|].
  unfold scan_state, res_scan. by rewrite res_scan_requests.
Qed.

(** X18. A call always fulfils, within the recursion the depth limit allows: no
    failure of the parser, of a request or of a selection makes it reject. *)
Theorem resolveXIncludes_never_rejects
    (h : Host) (xmlSource : string) (depth : nat) (baseUri : option Uri) :
  exists effs out, resolveXIncludes h xmlSource depth baseUri = Some (effs, Normal out).
Proof.
  destruct (resolve_effects_begin_with_scan h xmlSource depth baseUri)
    as (nested & out & Hresolve).
  by eexists _, _.
Qed.

(** X17. When the parser fails on the text of a nested call, or of any call
    before an inclusion element was met, the call returns its text
    unchanged; the requests made before the failure have been made all the
    same. *)
Theorem failed_scan_returns_text
    (h : Host) (xmlSource : string) (depth : nat) (baseUri : option Uri) (err : Exn) :
  failure (saxes h xmlSource) = Some err ->
  (0 < depth)%nat \/ count_xinclude h (events (saxes h xmlSource)) = 0%nat ->
  exists nested,
    resolveXIncludes h xmlSource depth baseUri
    = Some (effects (scan_state h xmlSource depth baseUri) ++ nested, Normal xmlSource).
Proof.
  intros Hfail Hwhere.
  destruct (resolve_effects_begin_with_scan h xmlSource depth baseUri)
    as (nested & out & Hresolve).
  exists nested. rewrite Hresolve.
  assert (degrades h depth xmlSource (scan_state h xmlSource depth baseUri) = true) as ->;
    [|done].
  unfold degrades. rewrite Hfail.
  destruct Hwhere as [Hdepth|Hnone].
  - apply Nat.ltb_lt in Hdepth. by rewrite Hdepth.
  - unfold scan_state, res_scan. rewrite res_scan_foundXi, Hnone. cbn.
    by rewrite orb_true_r.
Qed.

Lemma failed_scan_witness :
  exists nested,
    resolveXIncludes (Sample.host Sample.more_texts Sample.files 0 true)
      Sample.broken_xml 1 (Some (Sample.file "broken.xml"))
    = Some (effects (scan_state (Sample.host Sample.more_texts Sample.files 0 true)
                       Sample.broken_xml 1 (Some (Sample.file "broken.xml"))) ++ nested,
            Normal Sample.broken_xml).
Proof.
  apply (failed_scan_returns_text (Sample.host Sample.more_texts Sample.files 0 true)
           Sample.broken_xml 1 (Some (Sample.file "broken.xml"))
           (Error "1:79: unclosed tag: p")).
  - reflexivity.
  - left. lia.
Defined.

(** ** Texts the parser rejects, and parse modes the resolver rejects *)

(** X11. No fragment is taken from a text the parser rejects, not even when
    the target was complete before the error. *)
Theorem selection_fails_on_malformed_text
    (saxes : string -> Scan) (xmlSource xpointer : string) (err : Exn) :
  failure (saxes xmlSource) = Some err ->
  exists thrown, selectXPointerFragment saxes xmlSource xpointer = Throw thrown.
Proof.
  intros Hfail. unfold selectXPointerFragment.
  destruct (parseElementScheme xpointer) as [scheme|thrown]; cbn [mbind completion_bind];
    [|by eexists].
  assert (forall targetId, exists thrown,
            select_scheme (saxes xmlSource) xmlSource scheme targetId = Throw thrown)
    as Hselect.
  { intros targetId. unfold select_scheme.
    destruct (sel_run _ _ _ _ _) as [s|thrown]; cbn [mbind completion_bind];
      [|by eexists].
    rewrite Hfail. by eexists. }
  destruct scheme as [scheme|]; [apply Hselect|].
  destruct (normalizeXPointer xpointer); [by eexists | apply Hselect].
Qed.

Lemma selection_fails_on_malformed_witness :
  exists thrown,
    selectXPointerFragment (fun _ => Sample.broken_scan) Sample.broken_xml "element(1/1)"
    = Throw thrown.
Proof.
  apply (selection_fails_on_malformed_text (fun _ => Sample.broken_scan)
           Sample.broken_xml "element(1/1)" (Error "1:79: unclosed tag: p")).
  reflexivity.
Defined.

(** X15. A directive in a parse mode other than [xml] is replaced by an error
    marker that names the mode and cites the parser position and column at
    the directive; nothing is requested for it, [href] or not. *)
Theorem unsupported_parse_mode_is_marked
    (h : Host) (xmlSource : string) (depth : nat) (baseUri : option Uri)
    (before after : list SaxesEvent) (node : SaxesTag) (pp ending : ParserPos)
    (parseAttr : SaxesAttributeNS) :
  xincludeSupport h = true ->
  (depth < depthLimit h)%nat ->
  saxes h xmlSource
    = MkScan (before ++ [OpenTag node pp; CloseTag node pp] ++ after) None ending ->
  no_xinclude h before = true ->
  no_xinclude h after = true ->
  is_xinclude h node = true ->
  isSelfClosing node = true ->
  tag_start xmlSource pp <> -1 ->
  get_attribute node "parse" = Some parseAttr ->
  attr_value parseAttr <> "xml" ->
  resolveXIncludes h xmlSource depth baseUri
  = Some ([],
          Normal (JS.substring xmlSource 0 (tag_start xmlSource pp)
                    +:+ errorPI ("Unsupported XInclude parse value: " +:+ attr_value parseAttr)
                          (position pp) (column pp)
                    +:+ JS.substring_from xmlSource (Z.of_nat (position pp)))).
Proof.
  intros Hsup Hd Hscan Hbefore Hafter Hxi Hsc Hstart Hparse Hmode.
  rewrite resolveXIncludes_unfold, resolve_body_joined. cbv zeta.
  unfold degrades, res_scan. rewrite Hscan. cbn [events failure].
  rewrite !res_scan_app, (res_scan_no_xinclude _ _ _ _ _ _ _ Hbefore).
  cbn [fold_left res_event].
  rewrite res_opentag_active by done. cbv zeta.
  unfold parse_mode_xml. rewrite Hsup, Hparse.
  rewrite bool_decide_eq_false_2 by done. unfold flushed. rewrite Hsc. cbn [negb].
  rewrite res_closetag_selfclosing by done.
  rewrite (res_scan_no_xinclude _ _ _ _ _ _ _ Hafter).
  cbn. done.
Qed.

Lemma unsupported_parse_mode_witness :
  resolveXIncludes (Sample.host [(Sample.f_xml, Sample.f_scan)] Sample.files 0 true)
    Sample.f_xml 0 (Some (Sample.file "f.xml"))
  = Some ([],
          Normal (Sample.f_open
                    +:+ errorPI "Unsupported XInclude parse value: text" 85 85
                    +:+ "</f>")).
Proof.
  apply (unsupported_parse_mode_is_marked
           (Sample.host [(Sample.f_xml, Sample.f_scan)] Sample.files 0 true)
           Sample.f_xml 0 (Some (Sample.file "f.xml"))
           [OpenTag (Sample.plain "f" [] false) (Sample.after Sample.f_open)]
           [CloseTag (Sample.plain "f" [] false) (Sample.after Sample.f_xml)]
           Sample.f_node Sample.f_at Sample.done (Sample.attr "parse" "text")).
  - reflexivity.
  - vm_compute. lia.
  - reflexivity.
  - reflexivity.
  - reflexivity.
  - reflexivity.
  - reflexivity.
  - vm_compute. discriminate.
  - reflexivity.
  - discriminate.
Defined.

(** ** The selector's state after a scan *)

Lemma lastIndexOf_go_lower_bound c : forall text i acc bound,
  -1 <= acc -> 0 <= i -> -1 <= JS.lastIndexOf_go c text i bound acc.
Proof.
  induction text as [|a text IH]; intros i acc bound Hacc Hi; cbn; [done|].
  destruct (bound <? i); [done|]. apply IH; [|lia].
  destruct (bool_decide _); lia.
Qed.

Lemma tag_start_lower_bound xmlSource pp : -1 <= tag_start xmlSource pp.
Proof. apply lastIndexOf_go_lower_bound; lia. Qed.

(** The [opentag] handler before a selection is made: it throws, or leaves
    the selection open, or marks the element. *)
Lemma sel_opentag_cases xmlSource scheme targetId d cs k p pc ic ap af node opened :
  let s0 := MkSel d false None (-1) (-1) (cs ++ [k]) p pc ic ap af in
  let pos := Z.of_nat (position opened) in
  (exists thrown, sel_opentag xmlSource scheme targetId s0 node pos = Throw thrown)
  \/ (exists ap' af',
        sel_opentag xmlSource scheme targetId s0 node pos
        = Normal (MkSel (d + 1) false None (-1) (-1) (cs ++ [S k; 0%nat]) (p ++ [S k])
                    pc ic ap' af'))
  \/ (exists ap' af',
        tag_start xmlSource opened <> -1
        /\ sel_opentag xmlSource scheme targetId s0 node pos
           = Normal (MkSel (d + 1) true (if isSelfClosing node then None else Some (d + 1))
                       (tag_start xmlSource opened)
                       (if isSelfClosing node then pos else -1)
                       (cs ++ [S k; 0%nat]) (p ++ [S k]) pc ic ap' af')).
Proof.
  intros s0 pos. subst s0 pos. unfold sel_opentag. rewrite enter_element_stack. cbn [found].
  assert (forall ap' af',
    (exists thrown,
        markTarget xmlSource node (Z.of_nat (position opened))
          (MkSel (d + 1) false None (-1) (-1) (cs ++ [S k; 0%nat]) (p ++ [S k]) pc ic ap' af')
        = Throw thrown)
    \/ (tag_start xmlSource opened <> -1
        /\ markTarget xmlSource node (Z.of_nat (position opened))
             (MkSel (d + 1) false None (-1) (-1) (cs ++ [S k; 0%nat]) (p ++ [S k])
                pc ic ap' af')
           = Normal (MkSel (d + 1) true (if isSelfClosing node then None else Some (d + 1))
                       (tag_start xmlSource opened)
                       (if isSelfClosing node then Z.of_nat (position opened) else -1)
                       (cs ++ [S k; 0%nat]) (p ++ [S k]) pc ic ap' af'))) as Hmark.
  { intros ap' af'. rewrite markTarget_eq.
    destruct (Z.eqb_spec (tag_start xmlSource opened) (-1)); [left; by eexists | by right]. }
  assert (forall ap' af',
    let s := MkSel (d + 1) false None (-1) (-1) (cs ++ [S k; 0%nat]) (p ++ [S k])
               pc ic ap' af' in
    forall r, r = markTarget xmlSource node (Z.of_nat (position opened)) s \/ r = Normal s ->
    (exists thrown, r = Throw thrown)
    \/ (exists ap'' af'',
          r = Normal (MkSel (d + 1) false None (-1) (-1) (cs ++ [S k; 0%nat]) (p ++ [S k])
                        pc ic ap'' af''))
    \/ (exists ap'' af'',
          tag_start xmlSource opened <> -1
          /\ r = Normal (MkSel (d + 1) true (if isSelfClosing node then None else Some (d + 1))
                           (tag_start xmlSource opened)
                           (if isSelfClosing node then Z.of_nat (position opened) else -1)
                           (cs ++ [S k; 0%nat]) (p ++ [S k]) pc ic ap'' af''))) as Heither.
  { intros ap' af' s r [->| ->].
    - destruct (Hmark ap' af') as [Hthrow|[Hstart Hnormal]]; [by left|].
      right; right. by eexists _, _.
    - right; left. by eexists _, _. }
  destruct scheme as [[steps|id steps]|].
  - apply (Heither ap af). destruct (matchesPath _ _); [by left | by right].
  - cbn [idAnchorFound elementPath idAnchorPath].
    destruct (negb af && matchesId (attributes node) id) eqn:Hanchor.
    + unfold set_anchor. cbn [depth found targetDepth startPos endPos childCounts
        elementPath positionalCounts idCounts idAnchorPath idAnchorFound].
      destruct (length steps =? 0)%nat.
      * destruct (Hmark (Some (p ++ [S k])) true) as [[thrown ->]|[Hstart ->]];
          cbn [mbind completion_bind]; [left; by eexists|].
        right; right. exists (Some (p ++ [S k])), true. split; [done|].
        cbn [idAnchorFound idAnchorPath elementPath].
        rewrite Nat.ltb_irrefl. done.
      * cbn [mbind completion_bind idAnchorFound idAnchorPath elementPath].
        rewrite Nat.ltb_irrefl. cbn [andb]. right; left. by eexists _, _.
    + cbn [mbind completion_bind idAnchorFound idAnchorPath elementPath].
      destruct af; [|right; left; by eexists _, _].
      destruct ap as [anchor|]; [|right; left; by eexists _, _].
      apply (Heither (Some anchor) true).
      repeat case_match; (by left) || (by right).
  - destruct targetId as [id|]; [|right; left; by eexists _, _].
    apply (Heither ap af). cbn [elementPath].
    repeat case_match; (by left) || (by right).
Qed.

(** From a state with no selection, the scan of a forest throws, or ends
    with no selection, or ends with a complete one; the stacks are back where
    they were. *)
Lemma scan_forest_settles xmlSource scheme targetId : forall doc d cs k p pc ic ap af s,
  sel_run xmlSource scheme targetId
    (MkSel d false None (-1) (-1) (cs ++ [k]) p pc ic ap af) (document_events doc)
  = Normal s ->
  depth s = d /\ childCounts s = cs ++ [(k + length doc)%nat] /\ elementPath s = p
  /\ targetDepth s = None
  /\ (if found s then 0 <= startPos s /\ 0 <= endPos s
      else startPos s = -1 /\ endPos s = -1).
Proof.
  induction doc as [|node opened closed ch ts IHch IHts] using forest_ind;
    intros d cs k p pc ic ap af s Hrun.
  - cbn in Hrun. injection Hrun as <-. cbn. by rewrite Nat.add_0_r.
  - rewrite sel_run_element in Hrun.
    cbn [length]. replace (k + S (length ts))%nat with (S k + length ts)%nat by lia.
    destruct (sel_opentag_cases xmlSource scheme targetId d cs k p pc ic ap af node opened)
      as [[thrown Hopen]|[(ap' & af' & Hopen)|(ap' & af' & Hstart & Hopen)]];
      cbv zeta in Hopen; rewrite Hopen in Hrun; cbn [mbind completion_bind] in Hrun;
      [done| |].
    + (* no selection at this element *)
      replace (cs ++ [S k; 0%nat]) with ((cs ++ [S k]) ++ [0%nat]) in Hrun
        by by rewrite <- app_assoc.
      destruct (sel_run xmlSource scheme targetId _ (document_events ch)) as [s1|thrown]
        eqn:Hch; cbn [mbind completion_bind] in Hrun; [|done].
      apply IHch in Hch as (Hd1 & Hcs1 & Hp1 & Htd1 & Hsel1).
      destruct s1 as [d1 f1 td1 sp1 ep1 cs1 p1 pc1 ic1 ap1 af1].
      cbn [depth childCounts elementPath targetDepth found startPos endPos] in *. subst.
      destruct (sel_closetag_stack scheme d f1 None sp1 ep1 (cs ++ [S k])
                  (0 + length ch) p (S k) pc1 ic1 ap1 af1 (Z.of_nat (position closed)))
        as (pc2 & ic2 & Hclose).
      rewrite Hclose in Hrun. rewrite bool_decide_eq_false_2 in Hrun by done.
      destruct f1.
      * destruct (marked_forest xmlSource scheme targetId ts d None sp1 ep1 cs (S k) p
                    pc2 ic2 ap1 af1) as (pc3 & ic3 & Hts); [done|].
        rewrite Hts in Hrun. injection Hrun as <-. cbn. done.
      * destruct Hsel1 as [-> ->]. by apply IHts in Hrun.
    + (* this element is selected *)
      replace (cs ++ [S k; 0%nat]) with ((cs ++ [S k]) ++ [0%nat]) in Hrun
        by by rewrite <- app_assoc.
      destruct (marked_forest xmlSource scheme targetId ch (d + 1)
                  (if isSelfClosing node then None else Some (d + 1))
                  (tag_start xmlSource opened)
                  (if isSelfClosing node then Z.of_nat (position opened) else -1)
                  (cs ++ [S k]) 0%nat (p ++ [S k]) pc ic ap' af')
        as (pc1 & ic1 & Hch); [by destruct (isSelfClosing node); intros d0 [= <-]|].
      rewrite Hch in Hrun. cbn [mbind completion_bind] in Hrun.
      destruct (sel_closetag_stack scheme d true
                  (if isSelfClosing node then None else Some (d + 1))
                  (tag_start xmlSource opened)
                  (if isSelfClosing node then Z.of_nat (position opened) else -1)
                  (cs ++ [S k]) (0 + length ch) p (S k) pc1 ic1 ap' af'
                  (Z.of_nat (position closed)))
        as (pc2 & ic2 & Hclose).
      rewrite Hclose in Hrun.
      pose proof (tag_start_lower_bound xmlSource opened) as Hfrom.
      match type of Hrun with
      | sel_run _ _ _ (MkSel _ _ ?td _ ?ep _ _ _ _ _ _) _ = _ =>
          destruct (marked_forest xmlSource scheme targetId ts d td
                      (tag_start xmlSource opened) ep cs (S k) p pc2 ic2 ap' af')
            as (pc3 & ic3 & Hts)
      end.
      { intros d0. destruct (isSelfClosing node).
        - by rewrite bool_decide_eq_false_2.
        - by rewrite bool_decide_eq_true_2. }
      rewrite Hts in Hrun. injection Hrun as <-.
      cbn [depth childCounts elementPath targetDepth found startPos endPos].
      destruct (isSelfClosing node).
      * rewrite !bool_decide_eq_false_2 by done. repeat split; try done; lia.
      * rewrite !bool_decide_eq_true_2 by done. repeat split; try done; lia.
Qed.

(** X12. When the scan of a well-formed document is over without an exception,
    the selector's stacks are back where they started, with the number of
    top-level elements in the first counter, and the selection is either
    absent (both ends unset) or complete (both ends set): never half open. *)
Theorem scan_leaves_selection_settled
    (xmlSource : string) (scheme : option ElementScheme) (targetId : option string)
    (doc : list Element) (s : SelState) :
  sel_run xmlSource scheme targetId sel_init (document_events doc) = Normal s ->
  depth s = 0 /\ elementPath s = [] /\ childCounts s = [length doc]
  /\ targetDepth s = None
  /\ (if found s then 0 <= startPos s /\ 0 <= endPos s
      else startPos s = -1 /\ endPos s = -1).
Proof.
  intros Hrun.
  apply (scan_forest_settles xmlSource scheme targetId doc 0 [] 0%nat [] ∅ ∅ None false s)
    in Hrun as (? & ? & ? & ? & ?).
  done.
Qed.

Lemma scan_leaves_selection_settled_witness :
  exists s,
    sel_run Sample.sections_xml (Some (ById "intro" [1%nat])) None sel_init
      (document_events [Sample.root_element]) = Normal s
    /\ depth s = 0 /\ elementPath s = [] /\ childCounts s = [1%nat]
    /\ targetDepth s = None
    /\ (if found s then 0 <= startPos s /\ 0 <= endPos s
        else startPos s = -1 /\ endPos s = -1).
Proof.
  eexists. split; [vm_compute; reflexivity|].
  apply (scan_leaves_selection_settled Sample.sections_xml
           (Some (ById "intro" [1%nat])) None [Sample.root_element]).
  vm_compute. reflexivity.
Defined.

(** ** Printing steps and parsing them back *)

















